(** * Verification of the tagging, expansion and suggestion logic of the
      MLAI Slack bot (src/utils.py, src/graph.py, src/nlp.py).

    Python strings are modelled as [String.string] over ASCII characters;
    the string methods the code uses ([strip], [upper], [lower], [split],
    [in]) are written out below with Python's semantics on that subset.
    Calls to the external classifier and to the graph store are inputs of
    the model: a response value, or a function answering each query. *)

From Stdlib Require Import String Ascii List Bool ZArith QArith Qround Lia Lqa.
From Stdlib Require Import Permutation Sorted.
Import ListNotations.
Open Scope string_scope.

(** ** Python string methods on ASCII strings *)
Module PyStr.

(** [str.isspace] on ASCII: tab, newline, vertical tab, form feed,
    carriage return, the separators 0x1c-0x1f, and space. *)
Definition is_space (c : ascii) : bool :=
  let n := nat_of_ascii c in
  (((9 <=? n) && (n <=? 13)) || ((28 <=? n) && (n <=? 32)))%nat.

Fixpoint lstrip (s : string) : string :=
  match s with
  | EmptyString => EmptyString
  | String c s' => if is_space c then lstrip s' else s
  end.

Fixpoint rev_str (s : string) : string :=
  match s with
  | EmptyString => EmptyString
  | String c s' => rev_str s' ++ String c EmptyString
  end.

Definition rstrip (s : string) : string := rev_str (lstrip (rev_str s)).

(** [str.strip()] with no argument. *)
Definition strip (s : string) : string := rstrip (lstrip s).

Definition upper_char (c : ascii) : ascii :=
  let n := nat_of_ascii c in
  if ((97 <=? n) && (n <=? 122))%nat then ascii_of_nat (n - 32) else c.

Definition lower_char (c : ascii) : ascii :=
  let n := nat_of_ascii c in
  if ((65 <=? n) && (n <=? 90))%nat then ascii_of_nat (n + 32) else c.

Fixpoint map_str (f : ascii -> ascii) (s : string) : string :=
  match s with
  | EmptyString => EmptyString
  | String c s' => String (f c) (map_str f s')
  end.

Definition upper (s : string) : string := map_str upper_char s.
Definition lower (s : string) : string := map_str lower_char s.

(** [needle in hay]: substring test; the empty string is in every string. *)
Fixpoint substrb (needle hay : string) : bool :=
  match hay with
  | EmptyString => String.prefix needle hay
  | String _ hay' => String.prefix needle hay || substrb needle hay'
  end.

(** [s.split(sep)] for a one-character separator: always at least one
    piece; [""] splits to [[""]]. *)
Fixpoint split_on (sep : ascii) (s : string) : list string :=
  match s with
  | EmptyString => [EmptyString]
  | String c s' =>
      match split_on sep s' with
      | [] => [EmptyString]
      | p :: ps =>
          if Ascii.eqb c sep then EmptyString :: p :: ps
          else String c p :: ps
      end
  end.

(** [s.split(sep, 1)]: [None] when [sep] does not occur. *)
Fixpoint split_once (sep : ascii) (s : string) : option (string * string) :=
  match s with
  | EmptyString => None
  | String c s' =>
      if Ascii.eqb c sep then Some (EmptyString, s')
      else match split_once sep s' with
           | None => None
           | Some (a, b) => Some (String c a, b)
           end
  end.

(** [sep in s] for a one-character [sep]. *)
Fixpoint has_char (sep : ascii) (s : string) : bool :=
  match s with
  | EmptyString => false
  | String c s' => Ascii.eqb c sep || has_char sep s'
  end.

(** Python truthiness of a string. *)
Definition truthy (s : string) : bool :=
  match s with EmptyString => false | _ => true end.

End PyStr.

(** ** Responses of the external classifier ([client.responses.create])

    [Raised]: the call raises.  [Incomplete t]: status "incomplete" with
    reason "max_output_tokens" and [output_text = t].  [Complete t]: any
    other status, with [output_text = t]. *)
Inductive response :=
| Raised
| Incomplete (output_text : string)
| Complete (output_text : string).

(** ** Tagging Gate: [should_suggest_users] (src/utils.py) *)
Module Gate.
Import PyStr.

Definition tech_keywords : list string :=
  ["ai"; "ml"; "machine learning"; "artificial intelligence";
   "data"; "software"; "programming"; "robotics"; "research"].

(** The conservative heuristic of the [except] branch. *)
Definition fallback (topics : list string) : bool :=
  let has_tech :=
    existsb (fun topic =>
      existsb (fun keyword => substrb keyword (lower topic)) tech_keywords)
      topics in
  has_tech && (length topics <=? 3)%nat.

Definition should_suggest_users (topics : list string) (resp : response)
  : bool :=
  match topics with
  | [] => false
  | _ =>
    if (8 <? length topics)%nat then false
    else
      match resp with
      | Raised => fallback topics
      | Incomplete t =>
          if truthy t then String.eqb (upper (strip t)) "YES" else false
      | Complete t => String.eqb (upper (strip t)) "YES"
      end
  end.

End Gate.

(** ** Topic expansion: [expand_topics_for_matching] (src/utils.py) *)
Module Expand.
Import PyStr.

Definition mem (t : string) (l : list string) : bool :=
  existsb (String.eqb t) l.

(** [if t not in seen: expanded.append(t); seen.add(t)].  The code keeps
    [seen_topics] equal to the set of [expanded_topics], so one list serves
    for both. *)
Definition add_unseen (acc : list string) (t : string) : list string :=
  if mem t acc then acc else acc ++ [t].

(** The inner [for term in terms] loop: [term and term not in seen]. *)
Definition add_term (acc : list string) (term : string) : list string :=
  if truthy term then add_unseen acc term else acc.

(** [for group in content.split('|'): terms = [t.strip() for t in
    group.split(',')]; ...]. *)
Definition parse_groups (content : string) : list string :=
  fold_left (fun acc group =>
      fold_left add_term (map strip (map strip (split_on "," group))) acc)
    (split_on "|" content) [].

(** The body of the [try] block; [None] when it raises.  With an empty
    [canonical_topics] the summary print divides by [len(canonical_topics)]
    and raises [ZeroDivisionError]. *)
Definition expand_body (canonical_topics : list string) (resp : response)
  : option (list string) :=
  let from_content content :=
    let expanded := fold_left add_unseen canonical_topics
                      (parse_groups content) in
    match canonical_topics with
    | [] => None
    | _ => Some expanded
    end in
  match resp with
  | Raised => None
  | Incomplete t =>
      if truthy t then from_content (strip t) else Some canonical_topics
  | Complete t => from_content (strip t)
  end.

Definition expand_topics_for_matching (canonical_topics : list string)
    (resp : response) : list string :=
  match expand_body canonical_topics resp with
  | Some l => l
  | None => canonical_topics
  end.

End Expand.

(** ** Classifier output parsers (src/nlp.py) *)
Module Nlp.
Import PyStr.

(** One item of [content.split(",")]: [item = item.strip(); if "|" in item:
    topic, rel = item.split("|", 1) ... else (item.strip(), default)]. *)
Definition parse_item (default : string) (item0 : string) : string * string :=
  let item := strip item0 in
  if has_char "|" item then
    match split_once "|" item with
    | Some (topic, relationship) => (strip topic, strip relationship)
    | None => (strip item, default)
    end
  else (strip item, default).

(** The parsing loop of [extract_topics_with_relationships]. *)
Definition parse_topic_relationships (content : string)
  : list (string * string) :=
  map (parse_item "MENTIONS") (split_on "," content).

(** The parsing loop of [extract_interests_with_relationships]. *)
Definition parse_interest_relationships (content : string)
  : list (string * string) :=
  map (parse_item "IS_EXPERT_IN") (split_on "," content).

(** [extract_topics_with_relationships]: every exception yields [[]]. *)
Definition extract_topics_with_relationships (resp : response)
  : list (string * string) :=
  match resp with
  | Raised => []
  | Incomplete t =>
      if truthy t then parse_topic_relationships (strip t) else []
  | Complete t => parse_topic_relationships (strip t)
  end.

(** [extract_interests_with_relationships] has no [try]: a raising call
    propagates ([None]). *)
Definition extract_interests_with_relationships (resp : response)
  : option (list (string * string)) :=
  match resp with
  | Raised => None
  | Incomplete t =>
      if truthy t then Some (parse_interest_relationships (strip t))
      else Some []
  | Complete t => Some (parse_interest_relationships (strip t))
  end.

End Nlp.

(** ** Per-user tagging cooldown (src/utils.py)

    [time.time()] is modelled as a rational number of seconds since the
    epoch; [user_tag_cooldowns] as an association list. *)
Module Cooldown.

Definition USER_TAG_COOLDOWN : Q := 3600.

Definition store := list (string * Q).

Fixpoint lookup (u : string) (s : store) : option Q :=
  match s with
  | [] => None
  | (k, v) :: s' => if String.eqb k u then Some v else lookup u s'
  end.

(** [user_tag_cooldowns.get(user_id, 0)]. *)
Definition get_last_tagged (s : store) (u : string) : Q :=
  match lookup u s with Some t => t | None => 0 end.

(** [user_tag_cooldowns[user_id] = t]: overwrite in place, else append. *)
Fixpoint set_entry (u : string) (t : Q) (s : store) : store :=
  match s with
  | [] => [(u, t)]
  | (k, v) :: s' =>
      if String.eqb k u then (k, t) :: s' else (k, v) :: set_entry u t s'
  end.

(** [a < b] on rationals, as a boolean. *)
Definition Qltb (a b : Q) : bool := negb (Qle_bool b a).

Definition is_user_in_cooldown (s : store) (now : Q) (u : string) : bool :=
  Qltb (now - get_last_tagged s u) USER_TAG_COOLDOWN.

Definition update_user_cooldown (s : store) (now : Q) (u : string) : store :=
  set_entry u now s.

(** Python's [int(x)] on a float: truncation toward zero. *)
Definition py_int (q : Q) : Z :=
  if Qle_bool 0 q then Qfloor q else - Qfloor (- q).

Definition get_cooldown_remaining (s : store) (now : Q) (u : string) : Z :=
  let elapsed := now - get_last_tagged s u in
  Z.max 0 (py_int (USER_TAG_COOLDOWN - elapsed)).

End Cooldown.

(** ** Python dicts with string keys, in insertion order *)
Module Dict.

Fixpoint get {V} (k : string) (d : list (string * V)) : option V :=
  match d with
  | [] => None
  | (k', v) :: d' => if String.eqb k' k then Some v else get k d'
  end.

(** [d[k] = v]: an existing key keeps its position; a new key goes last. *)
Fixpoint set {V} (k : string) (v : V) (d : list (string * V))
  : list (string * V) :=
  match d with
  | [] => [(k, v)]
  | (k', v') :: d' =>
      if String.eqb k' k then (k', v) :: d' else (k', v') :: set k v d'
  end.

End Dict.

(** ** Relevance Ranker: [get_relevant_users_for_topics] (src/graph.py) *)
Module Graph.

(** One record returned by the Cypher query ([last_activity] is only used
    by the server-side ordering and is not read by the Python code). *)
Record edge := mk_edge {
  user_id : string;
  name : string;
  relationship : string;
  activity_level : Z
}.

(** The outcome of [session.run(query, ...)] for one topic: the rows
    (already ordered and limited by the server), or an exception. *)
Inductive query_result :=
| QOk (rows : list edge)
| QErr.

(** The graph store: whether [driver.session()] can be opened, and the
    answer to the per-topic query for [(topic, exclude_user_id, limit)]. *)
Record graph_store := mk_store {
  session_ok : bool;
  run : string -> option string -> nat -> query_result
}.

(** The [for] loop inside the [try]; [None] when a query raises. *)
Fixpoint query_loop (g : graph_store) (exclude : option string) (limit : nat)
    (topics : list string) (results : list (string * list edge))
  : option (list (string * list edge)) :=
  match topics with
  | [] => Some results
  | topic :: rest =>
      match run g topic exclude limit with
      | QErr => None
      | QOk [] => query_loop g exclude limit rest results
      | QOk topic_users =>
          query_loop g exclude limit rest (Dict.set topic topic_users results)
      end
  end.

Definition get_relevant_users_for_topics (g : graph_store)
    (topics : list string) (exclude : option string) (limit : nat)
  : list (string * list edge) :=
  if session_ok g then
    match query_loop g exclude limit topics [] with
    | Some results => results
    | None => []
    end
  else [].

(** An entry of the mapping that comes from a successful, non-empty
    query for that topic. *)
Definition entry_ok (g : graph_store) (exclude : option string) (limit : nat)
    (topics : list string) (t : string) (rows : list edge) : Prop :=
  In t topics /\ run g t exclude limit = QOk rows /\ rows <> [].

End Graph.

(** ** Suggestion Engine: [suggest_relevant_users] (src/utils.py) *)
Module Suggest.
Import PyStr Graph.

Record rel_info := mk_rel_info {
  ri_topic : string;
  ri_relationship : string;
  ri_activity_level : Z
}.

(** An entry of [user_map]. *)
Record candidate := mk_candidate {
  c_user_id : string;
  c_name : string;
  c_relationships : list rel_info;
  c_best_relationship : string;
  c_activity_level : Z;
  c_topics : list string
}.

(** Map a found topic back to the first canonical topic it matches by
    case-insensitive substring in either direction. *)
Fixpoint canonical_of (topics : list string) (found : string) : string :=
  match topics with
  | [] => found
  | canonical :: rest =>
      if substrb (lower canonical) (lower found)
         || substrb (lower found) (lower canonical)
      then canonical else canonical_of rest found
  end.

(** [# Keep the best relationship (expert > working > interested)]. *)
Definition keep_best (best rel : string) : string :=
  if String.eqb rel "IS_EXPERT_IN" then "IS_EXPERT_IN"
  else if String.eqb rel "WORKING_ON" && negb (String.eqb best "IS_EXPERT_IN")
  then "WORKING_ON"
  else best.

Definition new_candidate (user : edge) : candidate :=
  mk_candidate (user_id user) (name user) [] (relationship user)
    (activity_level user) [].

Definition record_edge (canonical_topic : string) (user : edge)
    (c : candidate) : candidate :=
  mk_candidate (c_user_id c) (c_name c)
    (c_relationships c ++
       [mk_rel_info canonical_topic (relationship user) (activity_level user)])
    (keep_best (c_best_relationship c) (relationship user))
    (c_activity_level c)
    (if Expand.mem canonical_topic (c_topics c) then c_topics c
     else c_topics c ++ [canonical_topic]).

(** The body of [for user in users]. *)
Definition consolidate_edge (canonical_topic : string)
    (user_map : list (string * candidate)) (user : edge)
  : list (string * candidate) :=
  let c := match Dict.get (user_id user) user_map with
           | Some c => c
           | None => new_candidate user
           end in
  Dict.set (user_id user) (record_edge canonical_topic user c) user_map.

Definition consolidate (topics : list string)
    (relevant_users : list (string * list edge))
  : list (string * candidate) :=
  fold_left (fun user_map '(found_topic, users) =>
      fold_left (consolidate_edge (canonical_of topics found_topic))
        users user_map)
    relevant_users [].

(** The first component of the sort key. *)
Definition tier (c : candidate) : Z :=
  if String.eqb (c_best_relationship c) "IS_EXPERT_IN" then 1
  else if String.eqb (c_best_relationship c) "WORKING_ON" then 2
  else 3.

(** Tuple order on [(tier, -activity_level)]. *)
Definition key_lt (a b : candidate) : bool :=
  (tier a <? tier b)%Z
  || ((tier a =? tier b)%Z
      && (- c_activity_level a <? - c_activity_level b)%Z).

(** Stable insertion: [x] goes before the first element not smaller. *)
Fixpoint insert (x : candidate) (l : list candidate) : list candidate :=
  match l with
  | [] => [x]
  | y :: ys => if key_lt y x then y :: insert x ys else x :: y :: ys
  end.

(** [sorted(..., key=...)], a stable sort. *)
Definition sort_candidates (l : list candidate) : list candidate :=
  fold_right insert [] l.

(** The sorted candidate pool [sorted_users]. *)
Definition candidate_pool (topics : list string)
    (relevant_users : list (string * list edge)) : list candidate :=
  sort_candidates (map snd (consolidate topics relevant_users)).

Record suggestions := mk_suggestions {
  s_topics : list string;
  s_users : list candidate;
  s_message : string
}.

Definition suggest_relevant_users (topics : list string)
    (exclude_user_id : option string) (expansion : response)
    (g : graph_store) (cooldowns : Cooldown.store) (now : Q)
    (max_suggestions : nat) : option suggestions :=
  let expanded_topics := Expand.expand_topics_for_matching topics expansion in
  let extended_limit := (max_suggestions * 3)%nat in
  let relevant_users :=
    get_relevant_users_for_topics g expanded_topics exclude_user_id
      extended_limit in
  match relevant_users with
  | [] => None
  | _ =>
      let sorted_users := candidate_pool topics relevant_users in
      let available_users :=
        filter (fun c => negb (Cooldown.is_user_in_cooldown cooldowns now
                                 (c_user_id c)))
          sorted_users in
      Some (mk_suggestions topics (firstn max_suggestions available_users) "")
  end.

(** The edges the two nested loops of the consolidation visit, in order,
    each with the canonical topic it is recorded under. *)
Definition edges_of (topics : list string)
    (relevant_users : list (string * list edge)) : list (string * edge) :=
  flat_map (fun p => map (fun e => (canonical_of topics (fst p), e)) (snd p))
    relevant_users.

(** The edges of one user, in the order the consolidation visits them. *)
Definition user_edges (u : string)
    (relevant_users : list (string * list edge)) : list edge :=
  filter (fun e => String.eqb (user_id e) u) (flat_map snd relevant_users).

(** The user's edges among a list of visited (topic, edge) pairs. *)
Definition edges_for (u : string) (L : list (string * edge)) : list edge :=
  filter (fun e => String.eqb (user_id e) u) (map snd L).

End Suggest.

(** ** Cooldown maintenance: [clear_expired_cooldowns], [get_cooldown_stats]
    (src/utils.py) *)
Module CooldownMaint.
Import Cooldown.

(** [del user_tag_cooldowns[user_id]]: the entry of the key goes. *)
Fixpoint del_key (u : string) (s : store) : store :=
  match s with
  | [] => []
  | (k, v) :: s' => if String.eqb k u then s' else (k, v) :: del_key u s'
  end.

(** [now - last_tagged > USER_TAG_COOLDOWN]. *)
Definition expired (now last_tagged : Q) : bool :=
  Qltb USER_TAG_COOLDOWN (now - last_tagged).

(** Returns the store after the sweep and [len(expired_users)]. *)
Definition clear_expired_cooldowns (s : store) (now : Q) : store * nat :=
  let expired_users :=
    map fst (filter (fun '(_, last_tagged) => expired now last_tagged) s) in
  (fold_left (fun s u => del_key u s) expired_users s, length expired_users).

Record active_cooldown := mk_active {
  ac_user_id : string;
  ac_remaining_seconds : Z;
  ac_remaining_minutes : Z
}.

Record cooldown_stats := mk_stats {
  total_users_tracked : nat;
  active_cooldowns : nat;
  cooldown_duration_hours : Q;
  users_in_cooldown : list active_cooldown
}.

(** One iteration of the loop over [user_tag_cooldowns.items()]: an entry
    is listed when its remaining time is positive. *)
Definition active_entry (now : Q) (e : string * Q) : list active_cooldown :=
  let '(user_id, last_tagged) := e in
  let remaining := USER_TAG_COOLDOWN - (now - last_tagged) in
  if Qltb 0 remaining then
    [mk_active user_id (py_int remaining) (py_int (Qfloor (remaining / 60) # 1))]
  else [].

Definition get_cooldown_stats (s : store) (now : Q) : cooldown_stats :=
  let active := flat_map (active_entry now) s in
  mk_stats (length s) (length active) (USER_TAG_COOLDOWN / 3600) active.

End CooldownMaint.

(** ** Conversation state (src/utils.py) *)
Module ConvState.

(** The values stored in a user's state dict: strings ([step],
    [thread_ts], [user_name]), [None] ([start_time] before the survey),
    the [conversation_history] list of [{role, content}] dicts, and the
    [datetime] stored as [start_time] when the survey starts (in seconds). *)
Inductive pyval :=
| VStr (s : string)
| VNone
| VHistory (h : list (string * string))
| VTime (t : Q).

Definition state := list (string * pyval).
Definition conv_store := list (string * state).

(** [conversation_state.get(user_id, {})] (also the [.copy()] of
    [safe_get_conversation_state]: the copy has the same contents). *)
Definition get_conversation_state (st : conv_store) (u : string) : state :=
  match Dict.get u st with Some d => d | None => [] end.

(** [d.update(updates)]. *)
Definition dict_update (d updates : state) : state :=
  fold_left (fun d '(k, v) => Dict.set k v d) updates d.

Definition safe_update_conversation_state (st : conv_store) (u : string)
    (updates : state) : conv_store :=
  let st1 := match Dict.get u st with
             | None => Dict.set u [] st
             | Some _ => st
             end in
  Dict.set u (dict_update (get_conversation_state st1 u) updates) st1.

(** [is_survey_timed_out]: [None] when [datetime.now() - start_time]
    raises [TypeError] (a truthy [start_time] that is not a datetime). *)
Definition is_survey_timed_out (st : conv_store) (now : Q) (u : string) : option bool :=
  match get_conversation_state st u with
  | [] => Some false
  | state =>
      match Dict.get "start_time" state with
      | None | Some VNone | Some (VStr EmptyString) | Some (VHistory []) => Some false
      | Some (VTime start_time) => Some (Cooldown.Qltb 600 (now - start_time))
      | Some _ => None
      end
  end.

End ConvState.

(** ** Retrying a Slack post: [safe_say] (src/utils.py) *)
Module SafeSay.

(** What one call of [say_func(message)] does. *)
Inductive say_outcome :=
| Sent
| RateLimited        (** [SlackApiError] with error "ratelimited" *)
| SlackError         (** any other [SlackApiError] *)
| OtherError.        (** any other exception *)

(** Attempts [attempt], [attempt+1], ... while [fuel] attempts remain; the
    result and the [time.sleep] durations, in order. *)
Fixpoint say_loop (calls : nat -> say_outcome) (attempt fuel : nat)
  : bool * list Z :=
  match fuel with
  | O => (false, [])
  | S fuel' =>
      match calls attempt with
      | Sent => (true, [])
      | RateLimited =>
          let '(r, waits) := say_loop calls (S attempt) fuel' in
          (r, (2 ^ Z.of_nat attempt)%Z :: waits)
      | SlackError | OtherError => (false, [])
      end
  end.

Definition safe_say (calls : nat -> say_outcome) (max_retries : nat)
  : bool * list Z :=
  say_loop calls 0 max_retries.

End SafeSay.

(** ** Reading users from Airtable and sending the survey DMs (src/utils.py) *)
Module Notify.
Import PyStr ConvState.

(** An Airtable record's ["fields"]. *)
Definition fields := list (string * string).

Record user_entry := mk_user { uid : string; uname : string }.

(** The configuration read from the environment. *)
Record config := mk_config {
  AIRTABLE_TABLE_NAME : string;
  AIRTABLE_COLUMN_NAME : string
}.

(** Python's [x or default] on an optional string. *)
Definition py_or (x : option string) (default : string) : string :=
  match x with
  | Some s => if truthy s then s else default
  | None => default
  end.

(** [rec["fields"].get(key, default)]. *)
Definition field_get (f : fields) (key default : string) : string :=
  match Dict.get key f with Some v => v | None => default end.

(** [records]: the rows of [airtable_table.all()], or [None] when the
    Airtable call raises. *)
Definition get_user_ids_from_table (cfg : config) (records : option (list fields))
    (table_id column_name : option string) (name_column : string)
  : list user_entry * string :=
  let target_table_id := py_or table_id (AIRTABLE_TABLE_NAME cfg) in
  let target_column := py_or column_name (AIRTABLE_COLUMN_NAME cfg) in
  match records with
  | None => ([], target_table_id)
  | Some recs =>
      (flat_map (fun rec =>
          match Dict.get target_column rec with
          | Some user_id =>
              if truthy user_id
              then [mk_user user_id (field_get rec name_column "there")]
              else []
          | None => []
          end) recs,
       target_table_id)
  end.

(** How the Slack calls of one [send_dm_to_user_id] go. *)
Inductive dm_outcome :=
| OpenFails                     (** [conversations_open] raises *)
| PostFails                     (** [chat_postMessage] raises *)
| Delivered (ts : string).      (** the message is posted with timestamp [ts] *)

(** [send_dm_to_user_id]: every exception is caught; returns the new
    conversation state and the [time.sleep] durations. *)
Definition send_dm_to_user_id (st : conv_store) (out : dm_outcome)
    (user_id user_name : string) : conv_store * list Q :=
  match out with
  | OpenFails => (st, [])
  | PostFails => (st, [1#2])
  | Delivered ts =>
      (safe_update_conversation_state st user_id
         [("step", VStr "not_started"); ("conversation_history", VHistory []);
          ("start_time", VNone); ("thread_ts", VStr ts);
          ("user_name", VStr user_name)],
       [1#2])
  end.

(** The [for i, user_info in enumerate(user_ids, 1)] loop; [i] is the
    1-based index and [n = len(user_ids)]. *)
Fixpoint send_all (deliver : string -> dm_outcome) (n i : nat)
    (users : list user_entry) (st : conv_store) (success_count : nat)
  : nat * conv_store * list Q :=
  match users with
  | [] => (success_count, st, [])
  | u :: rest =>
      let '(st1, w1) := send_dm_to_user_id st (deliver (uid u)) (uid u) (uname u) in
      let w2 := if (i <? n)%nat then [2] else [] in
      let '(cnt, st2, w3) := send_all deliver n (S i) rest st1 (S success_count) in
      (cnt, st2, app w1 (app w2 w3))
  end.

(** [notify_users_in_table]: the returned count, the conversation state
    afterwards, and the sleeps. *)
Definition notify_users_in_table (cfg : config) (records : option (list fields))
    (deliver : string -> dm_outcome) (st : conv_store)
    (table_id column_name : option string) (test_mode : bool)
  : nat * conv_store * list Q :=
  let '(user_ids, _) :=
    get_user_ids_from_table cfg records table_id column_name "Name" in
  match user_ids with
  | [] => (0%nat, st, [])
  | first :: _ =>
      if test_mode then
        let '(st1, w) := send_dm_to_user_id st (deliver (uid first))
                           (uid first) (uname first) in
        (1%nat, st1, w)
      else send_all deliver (length user_ids) 1 user_ids st 0
  end.

End Notify.

(** ** Writing to the graph: [update_knowledge_graph_with_relationships]
    and [update_knowledge_graph] (src/graph.py)

    The Cypher [MERGE] statements are modelled on an explicit store of user
    names, topic nodes, and edges keyed by (user, type, topic). *)
Module GraphDB.

Record rel_props := mk_props {
  count : Z;
  firstMentioned : string;
  lastMentioned : string;
  context : string
}.

Definition edge_key := (string * string * string)%type.

Definition key_eqb (a b : edge_key) : bool :=
  let '(u1, r1, t1) := a in
  let '(u2, r2, t2) := b in
  String.eqb u1 u2 && String.eqb r1 r2 && String.eqb t1 t2.

Record db := mk_db {
  users : list (string * string);
  topic_nodes : list string;
  edges : list (edge_key * rel_props)
}.

Fixpoint eget (k : edge_key) (es : list (edge_key * rel_props)) : option rel_props :=
  match es with
  | [] => None
  | (k', v) :: es' => if key_eqb k' k then Some v else eget k es'
  end.

Fixpoint eset (k : edge_key) (v : rel_props) (es : list (edge_key * rel_props))
  : list (edge_key * rel_props) :=
  match es with
  | [] => [(k, v)]
  | (k', v') :: es' =>
      if key_eqb k' k then (k', v) :: es' else (k', v') :: eset k v es'
  end.

Definition valid_relationships : list string :=
  ["MENTIONS"; "INTERESTED_IN"; "WORKING_ON"; "IS_EXPERT_IN"].

Definition context_map : list (string * string) :=
  [("MENTIONS", "conversation"); ("INTERESTED_IN", "learning_goal");
   ("WORKING_ON", "active_project"); ("IS_EXPERT_IN", "professional_expertise")].

(** One iteration of the loop; [None] when [context_map[...]] raises
    [KeyError]. *)
Definition merge_relationship (g : db) (user_id display_name : string)
    (ts : string) (p : string * string) : option db :=
  let '(topic, relationship_type0) := p in
  let relationship_type :=
    if Expand.mem relationship_type0 valid_relationships
    then relationship_type0 else "MENTIONS" in
  match Dict.get relationship_type context_map with
  | None => None
  | Some ctx =>
      let k := (user_id, relationship_type, topic) in
      Some (mk_db
        (Dict.set user_id display_name (users g))
        (if Expand.mem topic (topic_nodes g) then topic_nodes g
         else app (topic_nodes g) [topic])
        (match eget k (edges g) with
         | None => eset k (mk_props 1 ts ts ctx) (edges g)
         | Some r => eset k (mk_props (count r + 1) (firstMentioned r) ts
                               (context r)) (edges g)
         end))
  end.

(** The writes of the loop when every [session.run] returns: one
    [merge_relationship] per pair, in order. *)
Definition write_all (g : db) (user_id display_name : string)
    (topic_relationships : list (string * string)) (timestamp : string)
  : option db :=
  fold_left (fun og p =>
      match og with
      | Some g' => merge_relationship g' user_id display_name timestamp p
      | None => None
      end)
    topic_relationships (Some g).

(** The connection as one call meets it: [driver_cached] when [_driver]
    was set by an earlier call; [uri_set] and [password_set] when
    [NEO4J_URI] and [NEO4J_PASSWORD] are non-empty; [driver_ok] when
    [GraphDatabase.driver(...)] returns; [session_ok] when
    [driver.session()] opens; [run_ok i] when the [i]-th [session.run] of
    the call returns. *)
Record conn := mk_conn {
  driver_cached : bool;
  uri_set : bool;
  password_set : bool;
  driver_ok : bool;
  session_ok : bool;
  run_ok : nat -> bool
}.

(** [get_driver()]; [None] when it raises: [ValueError] for a missing
    [NEO4J_URI] or [NEO4J_PASSWORD], or an error of
    [GraphDatabase.driver]. *)
Definition get_driver (c : conn) : option unit :=
  if driver_cached c then Some tt
  else if negb (uri_set c) then None
  else if negb (password_set c) then None
  else if driver_ok c then Some tt
  else None.

(** The [for] loop inside [with driver.session() as session]: the type
    check and [context_map[...]] come before the [i]-th [session.run];
    [None] when either raises. *)
Fixpoint run_loop (c : conn) (i : nat) (g : db) (user_id display_name ts : string)
    (topic_relationships : list (string * string)) : option db :=
  match topic_relationships with
  | [] => Some g
  | p :: rest =>
      match merge_relationship g user_id display_name ts p with
      | None => None
      | Some g1 =>
          if run_ok c i then run_loop c (S i) g1 user_id display_name ts rest
          else None
      end
  end.

(** No [try] anywhere: [None] when the call raises. *)
Definition update_knowledge_graph_with_relationships (c : conn) (g : db)
    (user_id display_name : string) (topic_relationships : list (string * string))
    (timestamp : string) : option db :=
  match get_driver c with
  | None => None
  | Some _ =>
      if session_ok c
      then run_loop c 0 g user_id display_name timestamp topic_relationships
      else None
  end.

Definition update_knowledge_graph (c : conn) (g : db) (user_id display_name : string)
    (topics : list string) (slack_ts : string) : option db :=
  update_knowledge_graph_with_relationships c g user_id display_name
    (map (fun topic => (topic, "MENTIONS")) topics) slack_ts.

End GraphDB.

(** ** Concrete inputs used by the examples below *)
Module Scenarios.
Import Graph.

(** A store where the query for "LLM" succeeds and the one for "GPU"
    raises. *)
Definition store_one_failing : graph_store :=
  mk_store true (fun topic _ _ =>
    if String.eqb topic "LLM" then
      QOk [mk_edge "U1" "Ada" "IS_EXPERT_IN" 4]
    else if String.eqb topic "GPU" then QErr
    else QOk []).

(** Graph rows for "Robotics" in the server's order (INTERESTED_IN ranks
    before MENTIONS in the Cypher [ORDER BY]). *)
Definition ru_mixed : list (string * list edge) :=
  [("Robotics", [mk_edge "U2" "Bo" "INTERESTED_IN" 1;
                 mk_edge "U1" "Ada" "MENTIONS" 10])].

(** One user with edges on two expanded topics. *)
Definition ru_split : list (string * list edge) :=
  [("Robotics", [mk_edge "U1" "Ada" "WORKING_ON" 3]);
   ("Robots", [mk_edge "U1" "Ada" "MENTIONS" 2])].

(** A store whose only relevant user for "Robotics" is "U1". *)
Definition store_single : graph_store :=
  mk_store true (fun topic _ _ =>
    if String.eqb topic "Robotics" then
      QOk [mk_edge "U1" "Ada" "IS_EXPERT_IN" 5]
    else QOk []).

(** "U1" was tagged at 9000 s; the clock reads 10000 s. *)
Definition cooldowns_recent : Cooldown.store := [("U1", 9000%Q)].

End Scenarios.

(** * Properties *)

(** ** Tagging Gate *)

Lemma fallback_spec (topics : list string) :
  Gate.fallback topics = true <->
  (exists topic keyword, In topic topics /\ In keyword Gate.tech_keywords /\
     PyStr.substrb keyword (PyStr.lower topic) = true) /\
  (length topics <= 3)%nat.
Proof.
  unfold Gate.fallback. rewrite andb_true_iff, existsb_exists, Nat.leb_le.
  split.
  - intros [[topic [Hin Hk]] Hlen]. apply existsb_exists in Hk.
    destruct Hk as [kw [Hkw Hs]]. split; [exists topic, kw; auto | exact Hlen].
  - intros [[topic [kw [Hin [Hkw Hs]]]] Hlen]. split; [|exact Hlen].
    exists topic. split; [exact Hin|]. apply existsb_exists. eauto.
Qed.

(** C7: the gate rejects an empty topic list and a list of more than 8
    topics whatever the classifier answers; when the classifier call
    raises, it decides by the fallback heuristic, which admits iff some
    topic contains a technical keyword and there are at most 3 topics; in
    particular four topics with an unreachable classifier are rejected. *)
Theorem gate_guards_and_fallback :
  (forall resp, Gate.should_suggest_users [] resp = false) /\
  (forall topics resp, (8 < length topics)%nat ->
     Gate.should_suggest_users topics resp = false) /\
  (forall topics, topics <> [] -> (length topics <= 8)%nat ->
     Gate.should_suggest_users topics Raised = Gate.fallback topics) /\
  (forall topics, Gate.fallback topics = true <->
     (exists topic keyword, In topic topics /\ In keyword Gate.tech_keywords /\
        PyStr.substrb keyword (PyStr.lower topic) = true) /\
     (length topics <= 3)%nat) /\
  (forall topics, length topics = 4%nat ->
     Gate.should_suggest_users topics Raised = false).
Proof.
  split; [reflexivity|]. split.
  { intros topics resp H. destruct topics as [|t ts]; [reflexivity|].
    unfold Gate.should_suggest_users.
    destruct (8 <? length (t :: ts))%nat eqn:E; [reflexivity|].
    apply Nat.ltb_ge in E. lia. }
  split.
  { intros topics Hne Hlen. destruct topics as [|t ts]; [congruence|].
    unfold Gate.should_suggest_users.
    destruct (8 <? length (t :: ts))%nat eqn:E; [apply Nat.ltb_lt in E; lia|].
    reflexivity. }
  split; [exact fallback_spec|].
  intros topics H4. destruct topics as [|t ts]; [discriminate|].
  unfold Gate.should_suggest_users. rewrite H4. simpl.
  unfold Gate.fallback. rewrite H4. apply andb_false_r.
Qed.

Lemma gate_guards_and_fallback_witness :
  Gate.should_suggest_users [] Raised = false /\
  Gate.should_suggest_users
    ["a"; "b"; "c"; "d"; "e"; "f"; "g"; "h"; "ai"] (Complete "YES") = false /\
  Gate.should_suggest_users ["Robotics"] Raised = Gate.fallback ["Robotics"] /\
  (Gate.fallback ["Robotics"] = true <->
     (exists topic keyword, In topic ["Robotics"] /\
        In keyword Gate.tech_keywords /\
        PyStr.substrb keyword (PyStr.lower topic) = true) /\
     (length ["Robotics"] <= 3)%nat) /\
  Gate.should_suggest_users ["data"; "software"; "ai"; "ml"] Raised = false.
Proof.
  destruct gate_guards_and_fallback as [H1 [H2 [H3 [H4 H5]]]].
  split; [apply H1|]. split; [apply H2; simpl; lia|].
  split; [apply H3; [discriminate | simpl; lia]|].
  split; [apply H4|]. apply H5. reflexivity.
Defined.

(** C9: when the topic list passes the guards, the gate admits on a
    classifier output [s] (complete or truncated) exactly when [s] stripped
    and uppercased is "YES"; every other output is a rejection. *)
Theorem gate_admits_only_yes (topics : list string) (s : string) :
  (Gate.should_suggest_users topics (Complete s) = true <->
     topics <> [] /\ (length topics <= 8)%nat /\
     PyStr.upper (PyStr.strip s) = "YES") /\
  (Gate.should_suggest_users topics (Incomplete s) = true <->
     topics <> [] /\ (length topics <= 8)%nat /\
     PyStr.upper (PyStr.strip s) = "YES").
Proof.
  destruct topics as [|t ts].
  - split; split; [discriminate| intros [H _]; congruence
                  | discriminate | intros [H _]; congruence].
  - unfold Gate.should_suggest_users.
    destruct (8 <? length (t :: ts))%nat eqn:E.
    + apply Nat.ltb_lt in E.
      split; split; (discriminate || (intros [_ [H _]]; lia)).
    + apply Nat.ltb_ge in E.
      assert (Hne : t :: ts <> []) by discriminate.
      split.
      * rewrite String.eqb_eq. split; [intros H; auto | intros [_ [_ H]]; exact H].
      * destruct s as [|c s'].
        -- simpl. split; [discriminate | intros [_ [_ H]]; discriminate].
        -- cbv [PyStr.truthy]. rewrite String.eqb_eq.
           split; [intros H; auto | intros [_ [_ H]]; exact H].
Qed.

(** C10: the fallback matches keywords as substrings of the lowercased
    topic, so the non-technical single topic "Email" (which contains "ai")
    is admitted when the classifier call raises. *)
Theorem gate_fallback_substring_email :
  PyStr.substrb "ai" (PyStr.lower "Email") = true /\
  Gate.should_suggest_users ["Email"] Raised = true.
Proof. split; reflexivity. Qed.

(** ** Topic expansion *)

Lemma add_unseen_incl (acc : list string) (t : string) :
  incl acc (Expand.add_unseen acc t) /\ In t (Expand.add_unseen acc t).
Proof.
  unfold Expand.add_unseen, Expand.mem.
  destruct (existsb (String.eqb t) acc) eqn:E.
  - split; [apply incl_refl|].
    apply existsb_exists in E. destruct E as [x [Hx Heq]].
    apply String.eqb_eq in Heq. subst. exact Hx.
  - split; [intros x Hx; apply in_or_app; left; exact Hx|].
    apply in_or_app. right. left. reflexivity.
Qed.

Lemma fold_add_unseen_incl (l acc : list string) :
  incl acc (fold_left Expand.add_unseen l acc) /\
  incl l (fold_left Expand.add_unseen l acc).
Proof.
  revert acc. induction l as [|t l IH]; intros acc; simpl.
  - split; [apply incl_refl | intros x []].
  - destruct (add_unseen_incl acc t) as [H1 H2].
    destruct (IH (Expand.add_unseen acc t)) as [H3 H4].
    split.
    + intros x Hx. apply H3, H1, Hx.
    + intros x [Hx|Hx]; [subst; apply H3, H2 | apply H4, Hx].
Qed.

(** C5: the expansion of a canonical topic list [T] contains every element
    of [T], whatever the classifier answers: a full answer, a truncated
    one (with or without text), or a raised call, which returns [T]. *)
Theorem expand_contains_canonical (T : list string) (resp : response) :
  incl T (Expand.expand_topics_for_matching T resp).
Proof.
  unfold Expand.expand_topics_for_matching, Expand.expand_body.
  destruct resp as [|t|t];
    [apply incl_refl | destruct (PyStr.truthy t); [|apply incl_refl] | ];
    (destruct T as [|x xs]; [apply incl_refl|]);
    apply fold_add_unseen_incl.
Qed.

(** ** Classifier output parsers *)

Lemma parse_item_no_bar (default item : string) :
  PyStr.has_char "|" (PyStr.strip item) = false ->
  Nlp.parse_item default item = (PyStr.strip (PyStr.strip item), default).
Proof. intros H. unfold Nlp.parse_item. rewrite H. reflexivity. Qed.

(** C8 (as the code has it): an item of the comma-split classifier output
    without a '|' gets the default tag of its parser: "MENTIONS" in the
    message-topic parser, "IS_EXPERT_IN" in the profile-interest parser. *)
Theorem parsers_default_tags (content item : string) (i : nat) :
  nth_error (PyStr.split_on "," content) i = Some item ->
  PyStr.has_char "|" (PyStr.strip item) = false ->
  nth_error (Nlp.parse_topic_relationships content) i =
    Some (PyStr.strip (PyStr.strip item), "MENTIONS") /\
  nth_error (Nlp.parse_interest_relationships content) i =
    Some (PyStr.strip (PyStr.strip item), "IS_EXPERT_IN").
Proof.
  intros Hnth Hbar.
  unfold Nlp.parse_topic_relationships, Nlp.parse_interest_relationships.
  rewrite !nth_error_map, Hnth. simpl.
  rewrite !parse_item_no_bar by exact Hbar. split; reflexivity.
Qed.

Lemma parsers_default_tags_witness :
  nth_error (PyStr.split_on "," "LLMs|WORKING_ON, Python") 1 = Some " Python" /\
  PyStr.has_char "|" (PyStr.strip " Python") = false /\
  nth_error (Nlp.parse_topic_relationships "LLMs|WORKING_ON, Python") 1 =
    Some (PyStr.strip (PyStr.strip " Python"), "MENTIONS") /\
  nth_error (Nlp.parse_interest_relationships "LLMs|WORKING_ON, Python") 1 =
    Some (PyStr.strip (PyStr.strip " Python"), "IS_EXPERT_IN").
Proof.
  assert (H1 : nth_error (PyStr.split_on "," "LLMs|WORKING_ON, Python") 1
               = Some " Python") by reflexivity.
  assert (H2 : PyStr.has_char "|" (PyStr.strip " Python") = false)
    by reflexivity.
  split; [exact H1|]. split; [exact H2|].
  exact (parsers_default_tags _ _ _ H1 H2).
Defined.

(** C8 fails as stated: the profile-interest parser tags a plain item
    "IS_EXPERT_IN", not the lowest-priority "MENTIONS". *)
Lemma interests_plain_item_not_mentions :
  Nlp.extract_interests_with_relationships (Complete "Python") =
    Some [("Python", "IS_EXPERT_IN")] /\
  ~ In ("Python", "MENTIONS")
      (Nlp.parse_interest_relationships (PyStr.strip "Python")).
Proof.
  split; [reflexivity|]. simpl. intros [H|[]]. discriminate.
Qed.

(** ** Cooldown *)

Lemma Qltb_iff (a b : Q) : Cooldown.Qltb a b = true <-> a < b.
Proof.
  unfold Cooldown.Qltb. rewrite negb_true_iff. split; intros H.
  - apply Qnot_le_lt. intros H'. apply Qle_bool_iff in H'. congruence.
  - destruct (Qle_bool b a) eqn:E; [|reflexivity].
    apply Qle_bool_iff in E. exfalso. exact (Qlt_not_le _ _ H E).
Qed.

Lemma lookup_set_entry (u : string) (t : Q) (s : Cooldown.store) :
  Cooldown.lookup u (Cooldown.set_entry u t s) = Some t.
Proof.
  induction s as [|[k v] s IH]; simpl.
  - rewrite String.eqb_refl. reflexivity.
  - destruct (String.eqb k u) eqn:E; simpl; rewrite E; [reflexivity | exact IH].
Qed.

Lemma last_tagged_after_update (s : Cooldown.store) (t : Q) (u : string) :
  Cooldown.get_last_tagged (Cooldown.update_user_cooldown s t u) u = t.
Proof.
  unfold Cooldown.get_last_tagged, Cooldown.update_user_cooldown.
  rewrite lookup_set_entry. reflexivity.
Qed.

Lemma py_int_near_window (x : Q) :
  3599 < x -> x <= 3600 -> Cooldown.py_int x = 3600%Z \/ Cooldown.py_int x = 3599%Z.
Proof.
  intros Hlo Hhi. unfold Cooldown.py_int.
  destruct (Qle_bool 0 x) eqn:E;
    [| assert (H0 : 0 <= x) by lra; apply Qle_bool_iff in H0; congruence].
  pose proof (Qfloor_le x) as H1. pose proof (Qlt_floor x) as H2.
  assert (Hz1 : (Qfloor x <= 3600)%Z).
  { rewrite Zle_Qle. apply Qle_trans with x; [exact H1 | exact Hhi]. }
  assert (Hz2 : (3599 < Qfloor x + 1)%Z).
  { rewrite Zlt_Qlt. apply Qlt_trans with x; [exact Hlo | exact H2]. }
  lia.
Qed.

Lemma py_int_window : Cooldown.py_int (Cooldown.USER_TAG_COOLDOWN - 0) = 3600%Z.
Proof. reflexivity. Qed.

(** C6: a user is in cooldown iff [now - last_tagged <
    USER_TAG_COOLDOWN]; a user without an entry counts as last tagged at
    time 0, so at every clock reading a running bot sees (at least
    [USER_TAG_COOLDOWN] seconds after the epoch) it is not in cooldown;
    right after [update_user_cooldown] the user is in cooldown, the
    remaining time is [USER_TAG_COOLDOWN] at the same clock reading, and
    within one second of it the remaining time is [USER_TAG_COOLDOWN] or
    one less, [int()] truncating the fraction. *)
Theorem cooldown_window (s : Cooldown.store) (now t d : Q) (u : string) :
  (Cooldown.is_user_in_cooldown s now u = true <->
     (now - Cooldown.get_last_tagged s u < Cooldown.USER_TAG_COOLDOWN)%Q) /\
  (Cooldown.lookup u s = None -> (Cooldown.USER_TAG_COOLDOWN <= now)%Q ->
     Cooldown.is_user_in_cooldown s now u = false) /\
  (Cooldown.is_user_in_cooldown (Cooldown.update_user_cooldown s t u) t u = true /\
   Cooldown.get_cooldown_remaining (Cooldown.update_user_cooldown s t u) t u
     = 3600%Z) /\
  ((0 <= d)%Q -> (d < 1)%Q ->
   Cooldown.is_user_in_cooldown (Cooldown.update_user_cooldown s t u) (t + d) u
     = true /\
   (Cooldown.get_cooldown_remaining (Cooldown.update_user_cooldown s t u)
      (t + d) u = 3600%Z \/
    Cooldown.get_cooldown_remaining (Cooldown.update_user_cooldown s t u)
      (t + d) u = 3599%Z)).
Proof.
  unfold Cooldown.is_user_in_cooldown, Cooldown.get_cooldown_remaining.
  split; [apply Qltb_iff|]. split.
  { intros Hnone Hnow. unfold Cooldown.get_last_tagged. rewrite Hnone.
    destruct (Cooldown.Qltb (now - 0) Cooldown.USER_TAG_COOLDOWN) eqn:E;
      [|reflexivity].
    apply Qltb_iff in E. unfold Cooldown.USER_TAG_COOLDOWN in *. lra. }
  rewrite !last_tagged_after_update. split.
  - split.
    + apply Qltb_iff. unfold Cooldown.USER_TAG_COOLDOWN. lra.
    + unfold Cooldown.py_int.
      rewrite (Qfloor_comp _ 3600) by (unfold Cooldown.USER_TAG_COOLDOWN; ring).
      assert (H0 : (0 <= Cooldown.USER_TAG_COOLDOWN - (t - t))%Q)
        by (unfold Cooldown.USER_TAG_COOLDOWN; lra).
      apply Qle_bool_iff in H0. rewrite H0. reflexivity.
  - intros Hd0 Hd1. split.
    + apply Qltb_iff. unfold Cooldown.USER_TAG_COOLDOWN. lra.
    + assert (Hlo : (3599 < Cooldown.USER_TAG_COOLDOWN - (t + d - t))%Q)
        by (unfold Cooldown.USER_TAG_COOLDOWN; lra).
      assert (Hhi : (Cooldown.USER_TAG_COOLDOWN - (t + d - t) <= 3600)%Q)
        by (unfold Cooldown.USER_TAG_COOLDOWN; lra).
      destruct (py_int_near_window _ Hlo Hhi) as [H|H]; rewrite H;
        [left | right]; reflexivity.
Qed.

Lemma cooldown_window_witness :
  (Cooldown.lookup "U1" [] = None /\ (Cooldown.USER_TAG_COOLDOWN <= 5000)%Q /\
   Cooldown.is_user_in_cooldown [] 5000 "U1" = false) /\
  ((0 <= 1#2)%Q /\ (1#2 < 1)%Q /\
   Cooldown.is_user_in_cooldown
     (Cooldown.update_user_cooldown [] 5000 "U1") (5000 + (1#2)) "U1" = true /\
   (Cooldown.get_cooldown_remaining
      (Cooldown.update_user_cooldown [] 5000 "U1") (5000 + (1#2)) "U1"
      = 3600%Z \/
    Cooldown.get_cooldown_remaining
      (Cooldown.update_user_cooldown [] 5000 "U1") (5000 + (1#2)) "U1"
      = 3599%Z)).
Proof.
  destruct (cooldown_window [] 5000 5000 (1#2) "U1") as [_ [H2 [_ H4]]].
  assert (Hn : Cooldown.lookup "U1" [] = None) by reflexivity.
  assert (Hw : (Cooldown.USER_TAG_COOLDOWN <= 5000)%Q)
    by (unfold Cooldown.USER_TAG_COOLDOWN; lra).
  assert (Hd0 : (0 <= 1#2)%Q) by lra.
  assert (Hd1 : (1#2 < 1)%Q) by lra.
  split; [split; [exact Hn | split; [exact Hw | exact (H2 Hn Hw)]]|].
  split; [exact Hd0|]. split; [exact Hd1|]. exact (H4 Hd0 Hd1).
Defined.

(** ** Dicts *)

Lemma dict_get_set_eq {V} (k : string) (v : V) (d : list (string * V)) :
  Dict.get k (Dict.set k v d) = Some v.
Proof.
  induction d as [|[k' v'] d IH]; simpl.
  - rewrite String.eqb_refl. reflexivity.
  - destruct (String.eqb k' k) eqn:E; simpl; rewrite E; [reflexivity | exact IH].
Qed.

Lemma dict_get_set_neq {V} (k k' : string) (v : V) (d : list (string * V)) :
  k' <> k -> Dict.get k (Dict.set k' v d) = Dict.get k d.
Proof.
  intros Hne. induction d as [|[k0 v0] d IH]; simpl.
  - destruct (String.eqb k' k) eqn:E; [apply String.eqb_eq in E; congruence|].
    reflexivity.
  - destruct (String.eqb k0 k') eqn:E1; simpl.
    + apply String.eqb_eq in E1. subst k0.
      destruct (String.eqb k' k) eqn:E2; [apply String.eqb_eq in E2; congruence|].
      reflexivity.
    + destruct (String.eqb k0 k); [reflexivity | exact IH].
Qed.

Lemma dict_set_not_nil {V} (k : string) (v : V) (d : list (string * V)) :
  Dict.set k v d <> [].
Proof. destruct d as [|[k' v'] d]; simpl; [|destruct (String.eqb k' k)]; discriminate. Qed.

(** ** Relevance Ranker *)

Section Ranker.
Variables (g : Graph.graph_store) (exclude : option string) (limit : nat).

Lemma query_loop_err (topics : list string) (results : list (string * list Graph.edge)) :
  (exists t, In t topics /\ Graph.run g t exclude limit = Graph.QErr) ->
  Graph.query_loop g exclude limit topics results = None.
Proof.
  revert results. induction topics as [|t0 ts IH]; intros results [t [Hin Herr]].
  - destruct Hin.
  - simpl. destruct Hin as [<-|Hin].
    + rewrite Herr. reflexivity.
    + destruct (Graph.run g t0 exclude limit) as [[|r rs]|]; [| |reflexivity];
        apply IH; eauto.
Qed.

Lemma query_loop_ok (topics : list string) (results : list (string * list Graph.edge)) :
  (forall t, In t topics -> Graph.run g t exclude limit <> Graph.QErr) ->
  exists r, Graph.query_loop g exclude limit topics results = Some r /\
    (forall t rows, In t topics -> Graph.run g t exclude limit = Graph.QOk rows ->
       rows <> [] -> Dict.get t r = Some rows) /\
    (forall t, ~ In t topics -> Dict.get t r = Dict.get t results) /\
    (forall t rows, Dict.get t r = Some rows ->
       Graph.entry_ok g exclude limit topics t rows \/ Dict.get t results = Some rows).
Proof.
  revert results. induction topics as [|t0 ts IH]; intros results Hok.
  - exists results. split; [reflexivity|]. split; [intros t rows []|].
    split; [reflexivity|]. intros t rows H. right. exact H.
  - assert (Hts : forall t, In t ts -> Graph.run g t exclude limit <> Graph.QErr)
      by (intros t Ht; apply Hok; right; exact Ht).
    simpl. destruct (Graph.run g t0 exclude limit) as [rows0|] eqn:E0;
      [|exfalso; apply (Hok t0); [left; reflexivity | exact E0]].
    set (results' := match rows0 with [] => results
                     | _ => Dict.set t0 rows0 results end).
    assert (Hstep : Graph.query_loop g exclude limit ts results' =
                    match rows0 with
                    | [] => Graph.query_loop g exclude limit ts results
                    | _ :: _ => Graph.query_loop g exclude limit ts
                                  (Dict.set t0 rows0 results)
                    end) by (destruct rows0; reflexivity).
    destruct (IH results' Hts) as [r [Hr [H1 [H2 H3]]]].
    exists r. split; [destruct rows0; exact Hr|].
    split; [|split].
    + intros t rows Hin Hrun Hne. destruct (in_dec string_dec t ts) as [Hin'|Hin'].
      * apply H1; assumption.
      * destruct Hin as [<-|Hin]; [|contradiction].
        rewrite H2 by exact Hin'. rewrite E0 in Hrun. injection Hrun as ->.
        subst results'. destruct rows; [congruence|]. apply dict_get_set_eq.
    + intros t Hnin. rewrite H2 by (intros Hin; apply Hnin; right; exact Hin).
      subst results'. destruct rows0; [reflexivity|].
      apply dict_get_set_neq. intros ->. apply Hnin. left. reflexivity.
    + intros t rows Hget. destruct (H3 t rows Hget) as [[Hin [Hrun Hne]]|Hres].
      * left. split; [right; exact Hin | split; assumption].
      * subst results'. destruct rows0 as [|e es]; [right; exact Hres|].
        destruct (string_dec t0 t) as [<-|Hne].
        -- rewrite dict_get_set_eq in Hres. injection Hres as <-.
           left. split; [left; reflexivity | split; [exact E0 | discriminate]].
        -- rewrite dict_get_set_neq in Hres by exact Hne. right. exact Hres.
Qed.

Lemma query_loop_entries (topics : list string)
    (results r : list (string * list Graph.edge)) :
  Graph.query_loop g exclude limit topics results = Some r ->
  forall t rows, Dict.get t r = Some rows ->
    Graph.entry_ok g exclude limit topics t rows \/ Dict.get t results = Some rows.
Proof.
  revert results. induction topics as [|t0 ts IH]; intros results Hr t rows Hget.
  - simpl in Hr. injection Hr as ->. right. exact Hget.
  - simpl in Hr. destruct (Graph.run g t0 exclude limit) as [[|e es]|] eqn:E0;
      [| |discriminate].
    + destruct (IH results Hr t rows Hget) as [[Hin [Hrun Hne]]|Hres].
      * left. split; [right; exact Hin | split; assumption].
      * right. exact Hres.
    + destruct (IH _ Hr t rows Hget) as [[Hin [Hrun Hne]]|Hres].
      * left. split; [right; exact Hin | split; assumption].
      * destruct (string_dec t0 t) as [<-|Hne].
        -- rewrite dict_get_set_eq in Hres. injection Hres as <-.
           left. split; [left; reflexivity | split; [exact E0 | discriminate]].
        -- rewrite dict_get_set_neq in Hres by exact Hne. right. exact Hres.
Qed.

(** Every entry of the ranker's mapping holds the non-empty rows of a
    successful query for that topic. *)
Lemma ranker_entries_ok (topics : list string) :
  forall t rows,
    Dict.get t (Graph.get_relevant_users_for_topics g topics exclude limit)
      = Some rows ->
    Graph.entry_ok g exclude limit topics t rows.
Proof.
  intros t rows Hget. unfold Graph.get_relevant_users_for_topics in Hget.
  destruct (Graph.session_ok g); [|discriminate].
  destruct (Graph.query_loop g exclude limit topics []) as [r|] eqn:E;
    [|discriminate].
  destruct (query_loop_entries topics [] r E t rows Hget) as [H|H];
    [exact H | discriminate].
Qed.

End Ranker.


(** C2 fails as stated: the query for "GPU" raising discards the rows
    already found for "LLM"; the mapping is empty. *)
Lemma ranker_one_topic_error_empties :
  Graph.run Scenarios.store_one_failing "LLM" None 9 =
    Graph.QOk [Graph.mk_edge "U1" "Ada" "IS_EXPERT_IN" 4] /\
  Graph.get_relevant_users_for_topics Scenarios.store_one_failing ["LLM"; "GPU"] None 9
    = [].
Proof. split; reflexivity. Qed.

(** C2 (as the code has it): an error of the graph store, on opening the
    session or on the query of any one topic, yields the empty mapping;
    when no query raises, every topic with a non-empty answer is mapped to
    its rows, and every entry of the mapping is such a topic. *)
Theorem ranker_error_aborts_all (g : Graph.graph_store) (exclude : option string)
    (limit : nat) (topics : list string) :
  (Graph.session_ok g = false ->
     Graph.get_relevant_users_for_topics g topics exclude limit = []) /\
  ((exists t, In t topics /\ Graph.run g t exclude limit = Graph.QErr) ->
     Graph.get_relevant_users_for_topics g topics exclude limit = []) /\
  (Graph.session_ok g = true ->
   (forall t, In t topics -> Graph.run g t exclude limit <> Graph.QErr) ->
   forall t rows, In t topics -> Graph.run g t exclude limit = Graph.QOk rows ->
     rows <> [] ->
     Dict.get t (Graph.get_relevant_users_for_topics g topics exclude limit)
       = Some rows) /\
  (forall t rows,
     Dict.get t (Graph.get_relevant_users_for_topics g topics exclude limit)
       = Some rows ->
     In t topics /\ Graph.run g t exclude limit = Graph.QOk rows /\ rows <> []).
Proof.
  unfold Graph.get_relevant_users_for_topics.
  split; [intros H; rewrite H; reflexivity|]. split.
  { intros Herr. destruct (Graph.session_ok g); [|reflexivity].
    rewrite (query_loop_err g exclude limit topics [] Herr). reflexivity. }
  split.
  { intros Hs Hok. rewrite Hs.
    destruct (query_loop_ok g exclude limit topics [] Hok) as [r [Hr [H1 _]]].
    rewrite Hr. exact H1. }
  apply ranker_entries_ok.
Qed.

Lemma ranker_error_aborts_all_witness :
  (Graph.session_ok (Graph.mk_store false (Graph.run Scenarios.store_one_failing)) = false /\
   Graph.get_relevant_users_for_topics
     (Graph.mk_store false (Graph.run Scenarios.store_one_failing)) ["LLM"] None 9 = []) /\
  ((exists t, In t ["LLM"; "GPU"] /\
     Graph.run Scenarios.store_one_failing t None 9 = Graph.QErr) /\
   Graph.get_relevant_users_for_topics Scenarios.store_one_failing ["LLM"; "GPU"] None 9
     = []) /\
  (Graph.session_ok Scenarios.store_one_failing = true /\
   (forall t, In t ["LLM"] -> Graph.run Scenarios.store_one_failing t None 9 <> Graph.QErr) /\
   Dict.get "LLM"
     (Graph.get_relevant_users_for_topics Scenarios.store_one_failing ["LLM"] None 9)
     = Some [Graph.mk_edge "U1" "Ada" "IS_EXPERT_IN" 4]).
Proof.
  assert (Hok : forall t, In t ["LLM"] ->
            Graph.run Scenarios.store_one_failing t None 9 <> Graph.QErr)
    by (intros t [<-|[]]; discriminate).
  assert (Herr : exists t, In t ["LLM"; "GPU"] /\
            Graph.run Scenarios.store_one_failing t None 9 = Graph.QErr)
    by (exists "GPU"; split; [right; left; reflexivity | reflexivity]).
  split.
  { split; [reflexivity|].
    destruct (ranker_error_aborts_all
                (Graph.mk_store false (Graph.run Scenarios.store_one_failing)) None 9 ["LLM"])
      as [H1 _].
    exact (H1 eq_refl). }
  split.
  { split; [exact Herr|].
    destruct (ranker_error_aborts_all Scenarios.store_one_failing None 9 ["LLM"; "GPU"])
      as [_ [H2 _]].
    exact (H2 Herr). }
  split; [reflexivity|]. split; [exact Hok|].
  destruct (ranker_error_aborts_all Scenarios.store_one_failing None 9 ["LLM"])
    as [_ [_ [H3 _]]].
  apply (H3 eq_refl Hok); [left; reflexivity | reflexivity | discriminate].
Defined.

(** ** Consolidation *)

Lemma fold_left_map_pair {A B C} (f : A -> B -> A) (g : C -> B) (l : list C) (a : A) :
  fold_left f (map g l) a = fold_left (fun x y => f x (g y)) l a.
Proof. revert a. induction l as [|y l IH]; intros a; [reflexivity | apply IH]. Qed.

Lemma consolidate_flat (topics : list string)
    (ru : list (string * list Graph.edge)) (um : list (string * Suggest.candidate)) :
  fold_left (fun user_map '(found_topic, users) =>
      fold_left (Suggest.consolidate_edge (Suggest.canonical_of topics found_topic))
        users user_map) ru um =
  fold_left (fun um p => Suggest.consolidate_edge (fst p) um (snd p))
    (Suggest.edges_of topics ru) um.
Proof.
  revert um. induction ru as [|[f us] ru IH]; intros um; [reflexivity|].
  unfold Suggest.edges_of. simpl. rewrite fold_left_app, fold_left_map_pair.
  apply IH.
Qed.

Lemma edges_of_snd (topics : list string) (ru : list (string * list Graph.edge)) :
  map snd (Suggest.edges_of topics ru) = flat_map snd ru.
Proof.
  induction ru as [|[f us] ru IH]; [reflexivity|].
  unfold Suggest.edges_of in *. simpl. rewrite map_app, IH, map_map.
  f_equal. apply map_id.
Qed.

Lemma get_consolidate_edge (u ct : string) (um : list (string * Suggest.candidate))
    (e : Graph.edge) :
  Dict.get u (Suggest.consolidate_edge ct um e) =
  if String.eqb (Graph.user_id e) u then
    Some (Suggest.record_edge ct e
            match Dict.get u um with
            | Some c => c
            | None => Suggest.new_candidate e
            end)
  else Dict.get u um.
Proof.
  unfold Suggest.consolidate_edge.
  destruct (String.eqb (Graph.user_id e) u) eqn:E.
  - apply String.eqb_eq in E. rewrite E. apply dict_get_set_eq.
  - apply dict_get_set_neq. intros H. rewrite H, String.eqb_refl in E.
    discriminate.
Qed.

Lemma consolidate_some (u : string) (L : list (string * Graph.edge)) :
  forall um c0, Dict.get u um = Some c0 ->
  exists c, Dict.get u (fold_left (fun um p => Suggest.consolidate_edge (fst p) um (snd p)) L um) = Some c /\
    Suggest.c_activity_level c = Suggest.c_activity_level c0 /\
    Suggest.c_best_relationship c =
      fold_left Suggest.keep_best (map Graph.relationship (Suggest.edges_for u L))
        (Suggest.c_best_relationship c0).
Proof.
  unfold Suggest.edges_for.
  induction L as [|[ct e] L IH]; intros um c0 H0.
  - exists c0. simpl. auto.
  - simpl. destruct (IH (Suggest.consolidate_edge ct um e)
      (if String.eqb (Graph.user_id e) u then Suggest.record_edge ct e c0 else c0))
      as [c [Hc [Ha Hb]]].
    + rewrite get_consolidate_edge, H0. destruct (String.eqb (Graph.user_id e) u); reflexivity.
    + exists c. split; [exact Hc|]. rewrite Ha, Hb.
      destruct (String.eqb (Graph.user_id e) u); split; reflexivity.
Qed.

Lemma consolidate_none (u : string) (L : list (string * Graph.edge)) :
  forall um, Dict.get u um = None ->
  (Suggest.edges_for u L = [] ->
     Dict.get u (fold_left (fun um p => Suggest.consolidate_edge (fst p) um (snd p)) L um) = None) /\
  (forall e rest, Suggest.edges_for u L = e :: rest ->
   exists c, Dict.get u (fold_left (fun um p => Suggest.consolidate_edge (fst p) um (snd p)) L um) = Some c /\
     Suggest.c_activity_level c = Graph.activity_level e /\
     Suggest.c_best_relationship c =
       fold_left Suggest.keep_best (map Graph.relationship (e :: rest))
         (Graph.relationship e)).
Proof.
  unfold Suggest.edges_for.
  induction L as [|[ct e] L IH]; intros um H0.
  - split; [intros _; exact H0 | intros e rest H; discriminate].
  - simpl. destruct (String.eqb (Graph.user_id e) u) eqn:E.
    + split; [discriminate|]. intros e' rest Heq. injection Heq as <- <-.
      destruct (consolidate_some u L (Suggest.consolidate_edge ct um e)
                  (Suggest.record_edge ct e (Suggest.new_candidate e)))
        as [c [Hc [Ha Hb]]].
      { rewrite get_consolidate_edge, E, H0. reflexivity. }
      exists c. split; [exact Hc|]. split; [exact Ha|]. rewrite Hb. reflexivity.
    + apply IH. rewrite get_consolidate_edge, E. exact H0.
Qed.

Lemma keep_best_expert (b r : string) :
  Suggest.keep_best b r = "IS_EXPERT_IN" <-> r = "IS_EXPERT_IN" \/ b = "IS_EXPERT_IN".
Proof.
  unfold Suggest.keep_best.
  destruct (String.eqb r "IS_EXPERT_IN") eqn:E1.
  - apply String.eqb_eq in E1. tauto.
  - apply String.eqb_neq in E1.
    destruct (String.eqb r "WORKING_ON" && negb (String.eqb b "IS_EXPERT_IN")) eqn:E2.
    + apply andb_true_iff in E2. destruct E2 as [_ E2].
      apply negb_true_iff, String.eqb_neq in E2.
      split; [discriminate | intros [H|H]; contradiction].
    + tauto.
Qed.

Lemma keep_best_fold_expert (rs : list string) :
  forall b, fold_left Suggest.keep_best rs b = "IS_EXPERT_IN" <->
    b = "IS_EXPERT_IN" \/ In "IS_EXPERT_IN" rs.
Proof.
  induction rs as [|r rs IH]; intros b; simpl.
  - tauto.
  - rewrite IH, keep_best_expert. split.
    + intros [[H|H]|H]; [right; left; auto | left; exact H | right; right; exact H].
    + intros [H|[H|H]]; [left; right; exact H | left; left; auto | right; exact H].
Qed.

Lemma keep_best_fold_working (rs : list string) :
  forall b, b <> "IS_EXPERT_IN" -> ~ In "IS_EXPERT_IN" rs ->
    b = "WORKING_ON" \/ In "WORKING_ON" rs ->
    fold_left Suggest.keep_best rs b = "WORKING_ON".
Proof.
  induction rs as [|r rs IH]; intros b Hb Hnin Hw; simpl.
  - destruct Hw as [Hw|[]]. exact Hw.
  - assert (Hr : r <> "IS_EXPERT_IN") by (intros H; apply Hnin; left; auto).
    apply IH.
    + intros H. apply keep_best_expert in H. tauto.
    + intros H. apply Hnin. right. exact H.
    + unfold Suggest.keep_best.
      destruct (String.eqb r "IS_EXPERT_IN") eqn:E1;
        [apply String.eqb_eq in E1; contradiction|].
      destruct (String.eqb r "WORKING_ON") eqn:E2; simpl.
      * apply String.eqb_neq in Hb. rewrite Hb. left. reflexivity.
      * apply String.eqb_neq in E2. destruct Hw as [Hw|[Hw|Hw]];
          [left; exact Hw | congruence | right; exact Hw].
Qed.

Lemma consolidate_as_fold (topics : list string) (ru : list (string * list Graph.edge)) :
  Suggest.consolidate topics ru =
  fold_left (fun um p => Suggest.consolidate_edge (fst p) um (snd p))
    (Suggest.edges_of topics ru) [].
Proof. apply consolidate_flat. Qed.

Lemma user_edges_as_visited (topics : list string) (u : string)
    (ru : list (string * list Graph.edge)) :
  Suggest.user_edges u ru = Suggest.edges_for u (Suggest.edges_of topics ru).
Proof. unfold Suggest.user_edges, Suggest.edges_for. rewrite edges_of_snd. reflexivity. Qed.

(** C4 (as the code has it): consolidation yields one candidate per user
    that has an edge; its best relationship is IS_EXPERT_IN iff one of the
    user's edges is, and otherwise WORKING_ON when one of them is; its
    activity level is the activity of the user's first edge in iteration
    order, not a total over the edges. *)
Theorem consolidate_best_and_first_activity (topics : list string)
    (ru : list (string * list Graph.edge)) (u : string) :
  (Dict.get u (Suggest.consolidate topics ru) = None <->
     Suggest.user_edges u ru = []) /\
  (forall c, Dict.get u (Suggest.consolidate topics ru) = Some c ->
     (exists e rest, Suggest.user_edges u ru = e :: rest /\
        Suggest.c_activity_level c = Graph.activity_level e) /\
     (Suggest.c_best_relationship c = "IS_EXPERT_IN" <->
        exists e, In e (Suggest.user_edges u ru) /\
          Graph.relationship e = "IS_EXPERT_IN") /\
     ((forall e, In e (Suggest.user_edges u ru) ->
         Graph.relationship e <> "IS_EXPERT_IN") ->
      (exists e, In e (Suggest.user_edges u ru) /\
         Graph.relationship e = "WORKING_ON") ->
      Suggest.c_best_relationship c = "WORKING_ON")).
Proof.
  rewrite consolidate_as_fold, (user_edges_as_visited topics).
  destruct (consolidate_none u (Suggest.edges_of topics ru) [] eq_refl) as [Hnil Hcons].
  destruct (Suggest.edges_for u (Suggest.edges_of topics ru)) as [|e rest] eqn:Hes.
  - split; [split; [intros _; reflexivity | intros _; exact (Hnil eq_refl)]|].
    intros c Hc. rewrite (Hnil eq_refl) in Hc. discriminate.
  - destruct (Hcons e rest eq_refl) as [c0 [Hc0 [Ha Hb]]].
    split; [rewrite Hc0; split; discriminate|].
    intros c Hc. rewrite Hc0 in Hc. injection Hc as <-.
    split; [exists e, rest; split; [reflexivity | exact Ha]|].
    rewrite Hb. split.
    + rewrite keep_best_fold_expert. split.
      * intros [H|H]; [exists e; split; [left; reflexivity | exact H]|].
        apply in_map_iff in H. destruct H as [e' [He' Hin]]. exists e'. auto.
      * intros [e' [Hin He']]. right. apply in_map_iff. exists e'. auto.
    + intros Hno [e' [Hin' Hw]]. apply keep_best_fold_working.
      * apply Hno. left. reflexivity.
      * intros H. apply in_map_iff in H. destruct H as [e'' [He'' Hin'']].
        exact (Hno e'' Hin'' He'').
      * right. apply in_map_iff. exists e'. auto.
Qed.

Lemma consolidate_best_and_first_activity_witness :
  Dict.get "U1" (Suggest.consolidate ["Robotics"] Scenarios.ru_split) <> None /\
  (forall c, Dict.get "U1" (Suggest.consolidate ["Robotics"] Scenarios.ru_split)
               = Some c ->
     Suggest.c_activity_level c = 3%Z /\
     Suggest.c_best_relationship c <> "IS_EXPERT_IN" /\
     Suggest.c_best_relationship c = "WORKING_ON").
Proof.
  destruct (consolidate_best_and_first_activity ["Robotics"] Scenarios.ru_split "U1")
    as [[HN _] HS].
  split.
  { intros H. apply HN in H. discriminate. }
  intros c Hc. destruct (HS c Hc) as [[e [rest [Hes Ha]]] [Hx Hw]].
  cbv in Hes. injection Hes as <- _. split; [exact Ha|].
  assert (Hno : forall e, In e (Suggest.user_edges "U1" Scenarios.ru_split) ->
                  Graph.relationship e <> "IS_EXPERT_IN")
    by (intros e' H; cbv in H; destruct H as [<-|[<-|[]]]; discriminate).
  split.
  - intros H. apply Hx in H. destruct H as [e' [Hin He']]. exact (Hno e' Hin He').
  - apply Hw; [exact Hno|]. exists (Graph.mk_edge "U1" "Ada" "WORKING_ON" 3).
    split; [cbv; left; reflexivity | reflexivity].
Defined.

(** C4 fails as stated: a user with edges of activity 3 and 2 gets the
    activity level 3 of the first edge, not the total 5. *)
Lemma consolidate_activity_not_total :
  option_map Suggest.c_activity_level
    (Dict.get "U1" (Suggest.consolidate ["Robotics"] Scenarios.ru_split)) = Some 3%Z /\
  fold_right Z.add 0%Z
    (map Graph.activity_level (Suggest.user_edges "U1" Scenarios.ru_split)) = 5%Z.
Proof. split; reflexivity. Qed.

(** C3 (code as it is): the sort key gives INTERESTED_IN and MENTIONS the
    same tier 3, so a MENTIONS candidate with more activity is placed before
    an INTERESTED_IN candidate, although the graph query's [ORDER BY] ranks
    INTERESTED_IN (3) above MENTIONS (4). *)
Theorem sort_mentions_before_interested :
  map (fun c => (Suggest.c_user_id c, Suggest.c_best_relationship c))
    (Suggest.candidate_pool ["Robotics"] Scenarios.ru_mixed) =
  [("U1", "MENTIONS"); ("U2", "INTERESTED_IN")].
Proof. reflexivity. Qed.

(** ** Suggestion Engine *)

Lemma insert_length (x : Suggest.candidate) (l : list Suggest.candidate) :
  length (Suggest.insert x l) = S (length l).
Proof.
  induction l as [|y l IH]; simpl; [reflexivity|].
  destruct (Suggest.key_lt y x); simpl; [rewrite IH|]; reflexivity.
Qed.

Lemma sort_length (l : list Suggest.candidate) :
  length (Suggest.sort_candidates l) = length l.
Proof.
  induction l as [|x l IH]; simpl; [reflexivity|].
  unfold Suggest.sort_candidates in *. simpl. rewrite insert_length, IH. reflexivity.
Qed.

Lemma consolidate_not_nil (topics : list string) (ru : list (string * list Graph.edge)) :
  flat_map snd ru <> [] -> Suggest.consolidate topics ru <> [].
Proof.
  intros Hne. destruct (flat_map snd ru) as [|e es] eqn:Hfl; [congruence|].
  rewrite consolidate_as_fold.
  destruct (consolidate_none (Graph.user_id e) (Suggest.edges_of topics ru) [] eq_refl)
    as [_ Hcons].
  rewrite <- user_edges_as_visited in Hcons. unfold Suggest.user_edges in Hcons.
  rewrite Hfl in Hcons. simpl in Hcons. rewrite String.eqb_refl in Hcons.
  destruct (Hcons e _ eq_refl) as [c [Hc _]].
  intros Hnil. rewrite Hnil in Hc. discriminate.
Qed.

Lemma pool_not_nil (g : Graph.graph_store) (exclude : option string) (limit : nat)
    (topics expanded : list string) :
  Graph.get_relevant_users_for_topics g expanded exclude limit <> [] ->
  Suggest.candidate_pool topics
    (Graph.get_relevant_users_for_topics g expanded exclude limit) <> [].
Proof.
  intros Hne. unfold Suggest.candidate_pool.
  destruct (Graph.get_relevant_users_for_topics g expanded exclude limit)
    as [|[t rows] rest] eqn:E; [congruence|].
  assert (Hrows : rows <> []).
  { destruct (ranker_entries_ok g exclude limit expanded t rows) as [_ [_ H]];
      [rewrite E; simpl; rewrite String.eqb_refl; reflexivity | exact H]. }
  intros Hnil. apply (f_equal (@length _)) in Hnil.
  rewrite sort_length, length_map in Hnil.
  apply length_zero_iff_nil in Hnil. revert Hnil.
  apply consolidate_not_nil. simpl. destruct rows; [congruence | discriminate].
Qed.

Lemma filter_none_survive (cds : Cooldown.store) (now : Q)
    (l : list Suggest.candidate) :
  (forall c, In c l -> Cooldown.is_user_in_cooldown cds now (Suggest.c_user_id c) = true) ->
  filter (fun c => negb (Cooldown.is_user_in_cooldown cds now (Suggest.c_user_id c))) l = [].
Proof.
  induction l as [|c l IH]; intros Hall; [reflexivity|].
  simpl. rewrite (Hall c (or_introl eq_refl)). simpl.
  apply IH. intros c' Hin. apply Hall. right. exact Hin.
Qed.

(** C1 (as the code has it): with an empty graph mapping the engine
    returns none; otherwise the candidate pool is non-empty and the engine
    returns a suggestion set, tagged with the canonical topics, holding the
    first [max_suggestions] cooldown survivors in sorted order; when every
    candidate is in cooldown that set has an empty user list (not none). *)
Theorem suggest_zero_survivors_empty_set (topics : list string)
    (exclude : option string) (expansion : response) (g : Graph.graph_store)
    (cds : Cooldown.store) (now : Q) (max_suggestions : nat) :
  let ru := Graph.get_relevant_users_for_topics g
              (Expand.expand_topics_for_matching topics expansion) exclude
              (max_suggestions * 3) in
  let survivors := filter (fun c => negb (Cooldown.is_user_in_cooldown cds now
                                            (Suggest.c_user_id c)))
                     (Suggest.candidate_pool topics ru) in
  (ru = [] ->
     Suggest.suggest_relevant_users topics exclude expansion g cds now
       max_suggestions = None) /\
  (ru <> [] ->
     Suggest.candidate_pool topics ru <> [] /\
     Suggest.suggest_relevant_users topics exclude expansion g cds now
       max_suggestions =
     Some (Suggest.mk_suggestions topics (firstn max_suggestions survivors) "")) /\
  (ru <> [] ->
   (forall c, In c (Suggest.candidate_pool topics ru) ->
      Cooldown.is_user_in_cooldown cds now (Suggest.c_user_id c) = true) ->
   Suggest.suggest_relevant_users topics exclude expansion g cds now
     max_suggestions = Some (Suggest.mk_suggestions topics [] "")).
Proof.
  intros ru survivors. unfold Suggest.suggest_relevant_users. fold ru.
  split; [intros ->; reflexivity|].
  assert (Hsome : ru <> [] ->
    match ru with
    | [] => None
    | _ :: _ => Some (Suggest.mk_suggestions topics
        (firstn max_suggestions
           (filter (fun c => negb (Cooldown.is_user_in_cooldown cds now
                                     (Suggest.c_user_id c)))
              (Suggest.candidate_pool topics ru))) "")
    end = Some (Suggest.mk_suggestions topics (firstn max_suggestions survivors) ""))
    by (intros Hne; destruct ru; [congruence | reflexivity]).
  split.
  - intros Hne. split; [apply pool_not_nil; exact Hne | exact (Hsome Hne)].
  - intros Hne Hall. rewrite (Hsome Hne).
    assert (Hs : survivors = []).
    { subst survivors. apply filter_none_survive. exact Hall. }
    rewrite Hs. destruct max_suggestions; reflexivity.
Qed.

Lemma suggest_zero_survivors_empty_set_witness :
  Graph.get_relevant_users_for_topics Scenarios.store_single
    (Expand.expand_topics_for_matching ["Robotics"] (Complete "Robotics")) None
    (3 * 3) <> [] /\
  Suggest.suggest_relevant_users ["Robotics"] None (Complete "Robotics")
    Scenarios.store_single Scenarios.cooldowns_recent 10000 3 =
  Some (Suggest.mk_suggestions ["Robotics"] [] "").
Proof.
  destruct (suggest_zero_survivors_empty_set ["Robotics"] None (Complete "Robotics")
              Scenarios.store_single Scenarios.cooldowns_recent 10000 3)
    as [_ [_ H3]].
  assert (Hne : Graph.get_relevant_users_for_topics Scenarios.store_single
                  (Expand.expand_topics_for_matching ["Robotics"] (Complete "Robotics"))
                  None (3 * 3) <> []) by (vm_compute; discriminate).
  split; [exact Hne|]. apply (H3 Hne).
  intros c Hin. vm_compute in Hin. destruct Hin as [<-|[]]. vm_compute. reflexivity.
Defined.

(** C1 fails as stated: the only candidate, "U1", was tagged 1000 s ago,
    and the engine returns a suggestion set with no users instead of
    none. *)
Lemma all_in_cooldown_returns_empty_set :
  Suggest.candidate_pool ["Robotics"]
    (Graph.get_relevant_users_for_topics Scenarios.store_single ["Robotics"] None 9)
    <> [] /\
  Suggest.suggest_relevant_users ["Robotics"] None (Complete "Robotics")
    Scenarios.store_single Scenarios.cooldowns_recent 10000 3 =
  Some (Suggest.mk_suggestions ["Robotics"] [] "").
Proof. split; [vm_compute; discriminate | vm_compute; reflexivity]. Qed.

(** * Further properties of the code *)

(** ** Cooldown maintenance *)

Lemma lookup_not_key (u : string) (s : Cooldown.store) :
  ~ In u (map fst s) -> Cooldown.lookup u s = None.
Proof.
  induction s as [|[k v] s IH]; intros Hnin; [reflexivity|].
  simpl. destruct (String.eqb k u) eqn:E.
  - apply String.eqb_eq in E. subst. exfalso. apply Hnin. left. reflexivity.
  - apply IH. intros H. apply Hnin. right. exact H.
Qed.

Lemma lookup_filter_nodup (u : string) (q : Q -> bool) (s : Cooldown.store) :
  NoDup (map fst s) ->
  Cooldown.lookup u (filter (fun '(_, t) => q t) s) =
  match Cooldown.lookup u s with
  | Some t => if q t then Some t else None
  | None => None
  end.
Proof.
  induction s as [|[k v] s IH]; intros Hnd; [reflexivity|].
  inversion Hnd as [|x xs Hnin Hnd']; subst. simpl.
  destruct (String.eqb k u) eqn:E.
  - apply String.eqb_eq in E. subst k.
    destruct (q v) eqn:Eq; simpl.
    + rewrite String.eqb_refl. reflexivity.
    + apply lookup_not_key. intros Hin. apply Hnin.
      apply in_map_iff in Hin. destruct Hin as [[k' v'] [Hk Hin]].
      apply filter_In in Hin. apply in_map_iff. exists (k', v'). split; [exact Hk | apply Hin].
  - rewrite <- IH by exact Hnd'. destruct (q v); simpl; [rewrite E|]; reflexivity.
Qed.

Lemma fold_del_cons (L : list string) (k : string) (v : Q) (x : Cooldown.store) :
  (forall u, In u L -> u <> k) ->
  fold_left (fun s u => CooldownMaint.del_key u s) L ((k, v) :: x) =
  (k, v) :: fold_left (fun s u => CooldownMaint.del_key u s) L x.
Proof.
  revert x. induction L as [|u L IH]; intros x Hne; [reflexivity|].
  simpl. destruct (String.eqb k u) eqn:E.
  - apply String.eqb_eq in E. exfalso. apply (Hne u); [left; reflexivity | auto].
  - apply IH. intros u' Hin. apply Hne. right. exact Hin.
Qed.

Lemma sweep_filter (p : Q -> bool) (s : Cooldown.store) :
  NoDup (map fst s) ->
  fold_left (fun s u => CooldownMaint.del_key u s)
    (map fst (filter (fun '(_, t) => p t) s)) s =
  filter (fun '(_, t) => negb (p t)) s.
Proof.
  induction s as [|[k v] s IH]; intros Hnd; [reflexivity|].
  inversion Hnd as [|x xs Hnin Hnd']; subst. simpl.
  destruct (p v) eqn:Ep; simpl.
  - rewrite String.eqb_refl. apply IH. exact Hnd'.
  - rewrite fold_del_cons; [rewrite IH by exact Hnd'; reflexivity|].
    intros u Hin ->. apply Hnin. apply in_map_iff in Hin.
    destruct Hin as [[k' v'] [Hk Hin]]. simpl in Hk. subst k'.
    apply filter_In in Hin. apply in_map_iff. exists (k, v'). split; [reflexivity|].
    apply Hin.
Qed.

(** X1: on a store with one entry per user, [clear_expired_cooldowns]
    keeps exactly the entries with [now - last_tagged <= USER_TAG_COOLDOWN]
    and returns the number of entries it removed. *)
Theorem clear_expired_keeps_window (s : Cooldown.store) (now : Q) :
  NoDup (map fst s) ->
  CooldownMaint.clear_expired_cooldowns s now =
  (filter (fun '(_, t) => negb (CooldownMaint.expired now t)) s,
   length (filter (fun '(_, t) => CooldownMaint.expired now t) s)) /\
  (forall u t, In (u, t) (fst (CooldownMaint.clear_expired_cooldowns s now)) <->
     In (u, t) s /\ (now - t <= Cooldown.USER_TAG_COOLDOWN)%Q).
Proof.
  intros Hnd.
  assert (Heq : CooldownMaint.clear_expired_cooldowns s now =
    (filter (fun '(_, t) => negb (CooldownMaint.expired now t)) s,
     length (filter (fun '(_, t) => CooldownMaint.expired now t) s))).
  { unfold CooldownMaint.clear_expired_cooldowns.
    rewrite (sweep_filter (CooldownMaint.expired now) s Hnd), length_map.
    reflexivity. }
  split; [exact Heq|]. intros u t. rewrite Heq. simpl. rewrite filter_In.
  unfold CooldownMaint.expired. rewrite negb_true_iff.
  split; intros [Hin H]; split; try exact Hin.
  - apply Qnot_lt_le. intros Hlt. apply Qltb_iff in Hlt. congruence.
  - destruct (Cooldown.Qltb Cooldown.USER_TAG_COOLDOWN (now - t)) eqn:E;
      [|reflexivity].
    apply Qltb_iff in E. exfalso. exact (Qlt_not_le _ _ E H).
Qed.

Lemma clear_expired_keeps_window_witness :
  NoDup (map fst [("U1", 9000%Q); ("U2", 1000%Q)]) /\
  fst (CooldownMaint.clear_expired_cooldowns [("U1", 9000%Q); ("U2", 1000%Q)] 10000)
    = [("U1", 9000%Q)].
Proof.
  assert (Hnd : NoDup (map fst [("U1", 9000%Q); ("U2", 1000%Q)])).
  { repeat constructor; simpl; intuition discriminate. }
  split; [exact Hnd|].
  destruct (clear_expired_keeps_window _ 10000 Hnd) as [H _]. rewrite H.
  reflexivity.
Defined.

(** X2: once the clock reads at least [USER_TAG_COOLDOWN] seconds, the
    sweep changes no user's cooldown status (on a store with one entry per
    user). *)
Theorem clear_expired_preserves_cooldown (s : Cooldown.store) (now : Q) (u : string) :
  NoDup (map fst s) -> (Cooldown.USER_TAG_COOLDOWN <= now)%Q ->
  Cooldown.is_user_in_cooldown (fst (CooldownMaint.clear_expired_cooldowns s now)) now u =
  Cooldown.is_user_in_cooldown s now u.
Proof.
  intros Hnd Hnow. unfold CooldownMaint.clear_expired_cooldowns. simpl.
  rewrite (sweep_filter (CooldownMaint.expired now) s Hnd).
  unfold Cooldown.is_user_in_cooldown, Cooldown.get_last_tagged.
  rewrite (lookup_filter_nodup u (fun t => negb (CooldownMaint.expired now t)) s Hnd).
  destruct (Cooldown.lookup u s) as [t|]; [|reflexivity].
  destruct (CooldownMaint.expired now t) eqn:E; simpl; [|reflexivity].
  unfold CooldownMaint.expired in E. apply Qltb_iff in E.
  unfold Cooldown.USER_TAG_COOLDOWN in *.
  destruct (Cooldown.Qltb (now - 0) 3600) eqn:E1;
    [apply Qltb_iff in E1; exfalso; lra|].
  destruct (Cooldown.Qltb (now - t) 3600) eqn:E2;
    [apply Qltb_iff in E2; exfalso; lra|].
  reflexivity.
Qed.

Lemma clear_expired_preserves_cooldown_witness :
  NoDup (map fst [("U1", 9000%Q); ("U2", 1000%Q)]) /\
  (Cooldown.USER_TAG_COOLDOWN <= 10000)%Q /\
  Cooldown.is_user_in_cooldown
    (fst (CooldownMaint.clear_expired_cooldowns [("U1", 9000%Q); ("U2", 1000%Q)] 10000))
    10000 "U2" =
  Cooldown.is_user_in_cooldown [("U1", 9000%Q); ("U2", 1000%Q)] 10000 "U2".
Proof.
  assert (Hnd : NoDup (map fst [("U1", 9000%Q); ("U2", 1000%Q)])).
  { repeat constructor; simpl; intuition discriminate. }
  assert (Hn : (Cooldown.USER_TAG_COOLDOWN <= 10000)%Q)
    by (unfold Cooldown.USER_TAG_COOLDOWN; lra).
  split; [exact Hnd|]. split; [exact Hn|].
  exact (clear_expired_preserves_cooldown _ _ "U2" Hnd Hn).
Defined.

Lemma lookup_in_nodup (u : string) (t : Q) (s : Cooldown.store) :
  NoDup (map fst s) -> In (u, t) s -> Cooldown.lookup u s = Some t.
Proof.
  induction s as [|[k v] s IH]; intros Hnd Hin; [destruct Hin|].
  inversion Hnd as [|x xs Hnin Hnd']; subst. simpl.
  destruct Hin as [Heq|Hin].
  - injection Heq as -> ->. rewrite String.eqb_refl. reflexivity.
  - destruct (String.eqb k u) eqn:E; [|apply IH; assumption].
    apply String.eqb_eq in E. subst. exfalso. apply Hnin.
    apply in_map_iff. exists (u, t). auto.
Qed.

Lemma remaining_pos_iff (x : Q) :
  Cooldown.Qltb 0 (Cooldown.USER_TAG_COOLDOWN - x) = Cooldown.Qltb x Cooldown.USER_TAG_COOLDOWN.
Proof.
  unfold Cooldown.USER_TAG_COOLDOWN.
  destruct (Cooldown.Qltb x 3600) eqn:E.
  - apply Qltb_iff in E. apply Qltb_iff. lra.
  - destruct (Cooldown.Qltb 0 (3600 - x)) eqn:E'; [|reflexivity].
    apply Qltb_iff in E'. assert (H : x < 3600) by lra.
    apply Qltb_iff in H. congruence.
Qed.

Lemma py_int_nonneg (q : Q) : (0 <= q)%Q -> (0 <= Cooldown.py_int q)%Z.
Proof.
  intros H. unfold Cooldown.py_int.
  assert (Hb : Qle_bool 0 q = true) by (apply Qle_bool_iff; exact H).
  rewrite Hb. change 0%Z with (Qfloor 0). apply Qfloor_resp_le. exact H.
Qed.

Lemma py_int_nonpos (q : Q) : (q <= 0)%Q -> (Cooldown.py_int q <= 0)%Z.
Proof.
  intros H. unfold Cooldown.py_int.
  destruct (Qle_bool 0 q) eqn:E.
  - change 0%Z with (Qfloor 0). apply Qfloor_resp_le. exact H.
  - assert (H0 : (0 <= - q)%Q) by lra.
    apply (Qfloor_resp_le 0) in H0. change (Qfloor 0) with 0%Z in H0. lia.
Qed.

Lemma py_int_le_window (q : Q) : (q <= 3600)%Q -> (Cooldown.py_int q <= 3600)%Z.
Proof.
  intros H. unfold Cooldown.py_int.
  destruct (Qle_bool 0 q) eqn:E.
  - change 3600%Z with (Qfloor 3600). apply Qfloor_resp_le. exact H.
  - assert (H0 : ~ (0 <= q)%Q) by (intros H0; apply Qle_bool_iff in H0; congruence).
    assert (H1 : (0 <= - q)%Q) by lra.
    apply (Qfloor_resp_le 0) in H1. change (Qfloor 0) with 0%Z in H1. lia.
Qed.

(** X3: on a store with one entry per user, [get_cooldown_stats] counts as
    active exactly the tracked users that are in cooldown, and each listed
    user is in cooldown with [remaining_seconds] equal to
    [get_cooldown_remaining] for that user. *)
Theorem cooldown_stats_match (s : Cooldown.store) (now : Q) :
  NoDup (map fst s) ->
  CooldownMaint.total_users_tracked (CooldownMaint.get_cooldown_stats s now) = length s /\
  CooldownMaint.active_cooldowns (CooldownMaint.get_cooldown_stats s now) =
    length (filter (fun '(u, _) => Cooldown.is_user_in_cooldown s now u) s) /\
  (forall a, In a (CooldownMaint.users_in_cooldown (CooldownMaint.get_cooldown_stats s now)) ->
     Cooldown.is_user_in_cooldown s now (CooldownMaint.ac_user_id a) = true /\
     CooldownMaint.ac_remaining_seconds a =
       Cooldown.get_cooldown_remaining s now (CooldownMaint.ac_user_id a)).
Proof.
  intros Hnd. unfold CooldownMaint.get_cooldown_stats.
  cbn [CooldownMaint.total_users_tracked CooldownMaint.active_cooldowns CooldownMaint.users_in_cooldown].
  assert (Hcd : forall u t, In (u, t) s ->
            Cooldown.is_user_in_cooldown s now u = Cooldown.Qltb (now - t) Cooldown.USER_TAG_COOLDOWN /\
            Cooldown.get_last_tagged s u = t).
  { intros u t Hin. unfold Cooldown.is_user_in_cooldown, Cooldown.get_last_tagged.
    rewrite (lookup_in_nodup u t s Hnd Hin). split; reflexivity. }
  split; [reflexivity|].
  assert (Hgen : forall l, (forall x, In x l -> In x s) ->
    length (flat_map (CooldownMaint.active_entry now) l) =
    length (filter (fun '(u, _) => Cooldown.is_user_in_cooldown s now u) l) /\
    (forall a, In a (flat_map (CooldownMaint.active_entry now) l) ->
      Cooldown.is_user_in_cooldown s now (CooldownMaint.ac_user_id a) = true /\
      CooldownMaint.ac_remaining_seconds a =
        Cooldown.get_cooldown_remaining s now (CooldownMaint.ac_user_id a))).
  { induction l as [|[u t] l IH]; intros Hsub; [split; [reflexivity | intros a []]|].
    destruct (IH (fun x Hx => Hsub x (or_intror Hx))) as [IH1 IH2].
    destruct (Hcd u t (Hsub _ (or_introl eq_refl))) as [Hc Hl].
    cbn [flat_map filter].
    assert (Hent : CooldownMaint.active_entry now (u, t) =
      if Cooldown.Qltb 0 (Cooldown.USER_TAG_COOLDOWN - (now - t)) then
        [CooldownMaint.mk_active u (Cooldown.py_int (Cooldown.USER_TAG_COOLDOWN - (now - t)))
           (Cooldown.py_int (Qfloor ((Cooldown.USER_TAG_COOLDOWN - (now - t)) / 60) # 1))]
      else []) by reflexivity.
    rewrite Hent, remaining_pos_iff, Hc.
    destruct (Cooldown.Qltb (now - t) Cooldown.USER_TAG_COOLDOWN) eqn:E; cbn [app length].
    - split; [rewrite IH1; reflexivity|].
      intros a [<-|Ha]; [|exact (IH2 a Ha)]. simpl. split; [exact Hc|].
      unfold Cooldown.get_cooldown_remaining. rewrite Hl.
      apply Qltb_iff in E. rewrite Z.max_r; [reflexivity|].
      apply py_int_nonneg. unfold Cooldown.USER_TAG_COOLDOWN in *. lra.
    - split; [exact IH1 | exact IH2]. }
  destruct (Hgen s (fun x Hx => Hx)) as [H1 H2]. split; [exact H1 | exact H2].
Qed.

Lemma cooldown_stats_match_witness :
  NoDup (map fst [("U1", 9000%Q); ("U2", 1000%Q)]) /\
  CooldownMaint.active_cooldowns
    (CooldownMaint.get_cooldown_stats [("U1", 9000%Q); ("U2", 1000%Q)] 10000) = 1%nat.
Proof.
  assert (Hnd : NoDup (map fst [("U1", 9000%Q); ("U2", 1000%Q)])).
  { repeat constructor; simpl; intuition discriminate. }
  split; [exact Hnd|].
  destruct (cooldown_stats_match _ 10000 Hnd) as [_ [H _]]. rewrite H.
  reflexivity.
Defined.

(** X4: the remaining cooldown is never negative; it is positive only for a
    user in cooldown, 0 for a user out of cooldown, and at most
    [USER_TAG_COOLDOWN] seconds when the last tag is not in the future. *)
Theorem cooldown_remaining_bounds (s : Cooldown.store) (now : Q) (u : string) :
  (0 <= Cooldown.get_cooldown_remaining s now u)%Z /\
  (Cooldown.is_user_in_cooldown s now u = false ->
     Cooldown.get_cooldown_remaining s now u = 0%Z) /\
  ((0 < Cooldown.get_cooldown_remaining s now u)%Z ->
     Cooldown.is_user_in_cooldown s now u = true) /\
  ((Cooldown.get_last_tagged s u <= now)%Q ->
     (Cooldown.get_cooldown_remaining s now u <= 3600)%Z).
Proof.
  unfold Cooldown.get_cooldown_remaining, Cooldown.is_user_in_cooldown.
  assert (Hoff : Cooldown.Qltb (now - Cooldown.get_last_tagged s u) Cooldown.USER_TAG_COOLDOWN = false ->
    Z.max 0 (Cooldown.py_int (Cooldown.USER_TAG_COOLDOWN - (now - Cooldown.get_last_tagged s u))) = 0%Z).
  { intros E. apply Z.max_l. apply py_int_nonpos.
    destruct (Qlt_le_dec (now - Cooldown.get_last_tagged s u) Cooldown.USER_TAG_COOLDOWN) as [Hl|Hl].
    - apply Qltb_iff in Hl. congruence.
    - lra. }
  split; [apply Z.le_max_l|]. split; [exact Hoff|]. split.
  - intros Hpos. destruct (Cooldown.Qltb _ _) eqn:E; [reflexivity|].
    rewrite (Hoff eq_refl) in Hpos. lia.
  - intros Hle. apply Z.max_lub; [lia|]. apply py_int_le_window.
    unfold Cooldown.USER_TAG_COOLDOWN. lra.
Qed.

Lemma cooldown_remaining_bounds_witness :
  Cooldown.get_cooldown_remaining [("U1", 1000%Q)] 10000 "U1" = 0%Z /\
  (Cooldown.get_last_tagged [("U1", 9000%Q)] "U1" <= 10000)%Q /\
  (Cooldown.get_cooldown_remaining [("U1", 9000%Q)] 10000 "U1" <= 3600)%Z.
Proof.
  destruct (cooldown_remaining_bounds [("U1", 1000%Q)] 10000 "U1") as [_ [H1 _]].
  destruct (cooldown_remaining_bounds [("U1", 9000%Q)] 10000 "U1") as [_ [_ [_ H4]]].
  assert (Hl : (Cooldown.get_last_tagged [("U1", 9000%Q)] "U1" <= 10000)%Q).
  { unfold Cooldown.get_last_tagged. simpl. lra. }
  split; [apply H1; reflexivity|]. split; [exact Hl | exact (H4 Hl)].
Defined.

Lemma lookup_set_entry_other (u v : string) (t : Q) (s : Cooldown.store) :
  u <> v -> Cooldown.lookup v (Cooldown.set_entry u t s) = Cooldown.lookup v s.
Proof.
  intros Hne. induction s as [|[k x] s IH]; simpl.
  - destruct (String.eqb u v) eqn:E; [apply String.eqb_eq in E; congruence|]. reflexivity.
  - destruct (String.eqb k u) eqn:E1; simpl.
    + apply String.eqb_eq in E1. subst k.
      destruct (String.eqb u v) eqn:E2; [apply String.eqb_eq in E2; congruence|].
      reflexivity.
    + destruct (String.eqb k v); [reflexivity | exact IH].
Qed.

Lemma set_entry_idem (u : string) (t : Q) (s : Cooldown.store) :
  Cooldown.set_entry u t (Cooldown.set_entry u t s) = Cooldown.set_entry u t s.
Proof.
  induction s as [|[k x] s IH]; simpl.
  - rewrite String.eqb_refl. reflexivity.
  - destruct (String.eqb k u) eqn:E; simpl; rewrite E; [reflexivity|].
    rewrite IH. reflexivity.
Qed.

(** X5: [update_user_cooldown] sets the stamp of its user only (every
    other user's entry is unchanged), and stamping twice at the same time
    gives the same store as stamping once. *)
Theorem update_cooldown_local_idempotent (s : Cooldown.store) (t : Q) (u v : string) :
  Cooldown.lookup v (Cooldown.update_user_cooldown s t u) =
    (if String.eqb u v then Some t else Cooldown.lookup v s) /\
  Cooldown.update_user_cooldown (Cooldown.update_user_cooldown s t u) t u =
    Cooldown.update_user_cooldown s t u.
Proof.
  unfold Cooldown.update_user_cooldown. split; [|apply set_entry_idem].
  destruct (String.eqb u v) eqn:E.
  - apply String.eqb_eq in E. subst. apply lookup_set_entry.
  - apply lookup_set_entry_other. intros H. subst. rewrite String.eqb_refl in E. discriminate.
Qed.

(** ** Conversation state *)

Lemma dict_get_app_single {V} (k k' : string) (v' : V) (l : list (string * V)) :
  Dict.get k (l ++ [(k', v')]) =
    match Dict.get k l with
    | Some v => Some v
    | None => if String.eqb k' k then Some v' else None
    end.
Proof.
  induction l as [|[k0 v0] l IH]; simpl; [reflexivity|].
  destruct (String.eqb k0 k); [reflexivity | exact IH].
Qed.

Lemma dict_get_set_cases {V} (k k' : string) (v : V) (d : list (string * V)) :
  Dict.get k (Dict.set k' v d) = if String.eqb k' k then Some v else Dict.get k d.
Proof.
  destruct (String.eqb k' k) eqn:E.
  - apply String.eqb_eq in E. subst. apply dict_get_set_eq.
  - apply dict_get_set_neq. intros H. subst. rewrite String.eqb_refl in E. discriminate.
Qed.

Lemma dict_update_get (k : string) (d updates : ConvState.state) :
  Dict.get k (ConvState.dict_update d updates) =
    match Dict.get k (rev updates) with
    | Some v => Some v
    | None => Dict.get k d
    end.
Proof.
  revert d. induction updates as [|[k' v'] updates IH]; intros d; [reflexivity|].
  unfold ConvState.dict_update in *. simpl fold_left. rewrite IH.
  simpl rev. rewrite dict_get_app_single, dict_get_set_cases.
  destruct (Dict.get k (rev updates)); [reflexivity|].
  destruct (String.eqb k' k); reflexivity.
Qed.

Lemma safe_update_state (st : ConvState.conv_store) (u v : string) (updates : ConvState.state) :
  ConvState.get_conversation_state (ConvState.safe_update_conversation_state st u updates) v =
    if String.eqb u v
    then ConvState.dict_update (ConvState.get_conversation_state st u) updates
    else ConvState.get_conversation_state st v.
Proof.
  unfold ConvState.safe_update_conversation_state.
  assert (Hst1 : forall st1, ConvState.get_conversation_state st1 u = ConvState.get_conversation_state st u ->
            (forall w, u <> w -> Dict.get w st1 = Dict.get w st) ->
    ConvState.get_conversation_state
      (Dict.set u (ConvState.dict_update (ConvState.get_conversation_state st1 u) updates) st1) v =
    if String.eqb u v
    then ConvState.dict_update (ConvState.get_conversation_state st u) updates
    else ConvState.get_conversation_state st v).
  { intros st1 Hu Hw. unfold ConvState.get_conversation_state at 1.
    rewrite dict_get_set_cases. destruct (String.eqb u v) eqn:E.
    - rewrite Hu. reflexivity.
    - unfold ConvState.get_conversation_state. rewrite Hw; [reflexivity|].
      intros H. subst. rewrite String.eqb_refl in E. discriminate. }
  destruct (Dict.get u st) eqn:Eu; apply Hst1.
  - reflexivity.
  - reflexivity.
  - unfold ConvState.get_conversation_state. rewrite dict_get_set_eq, Eu. reflexivity.
  - intros w Hne. apply dict_get_set_neq. exact Hne.
Qed.

(** X6: [safe_update_conversation_state] changes the state of its user
    only; in that user's state a key takes the last value the updates give
    it, and every key the updates do not mention keeps its old value (a user
    with no state starts from the empty dict). *)
Theorem safe_update_merges (st : ConvState.conv_store) (u v k : string) (updates : ConvState.state) :
  (u <> v ->
   ConvState.get_conversation_state (ConvState.safe_update_conversation_state st u updates) v =
   ConvState.get_conversation_state st v) /\
  Dict.get k (ConvState.get_conversation_state (ConvState.safe_update_conversation_state st u updates) u) =
    match Dict.get k (rev updates) with
    | Some x => Some x
    | None => Dict.get k (ConvState.get_conversation_state st u)
    end.
Proof.
  split.
  - intros Hne. rewrite safe_update_state.
    destruct (String.eqb u v) eqn:E; [apply String.eqb_eq in E; congruence | reflexivity].
  - rewrite safe_update_state, String.eqb_refl. apply dict_update_get.
Qed.

Lemma safe_update_merges_witness :
  ("U1" <> "U2") /\
  ConvState.get_conversation_state
    (ConvState.safe_update_conversation_state
       [("U2", [("step", ConvState.VStr "q1")])] "U1" [("step", ConvState.VStr "not_started")]) "U2" =
  [("step", ConvState.VStr "q1")].
Proof.
  assert (Hne : "U1" <> "U2") by discriminate.
  split; [exact Hne|].
  destruct (safe_update_merges [("U2", [("step", ConvState.VStr "q1")])] "U1" "U2" "step"
              [("step", ConvState.VStr "not_started")]) as [H _].
  rewrite (H Hne). reflexivity.
Defined.

(** ** Retrying a post *)

Lemma say_loop_success (calls : nat -> SafeSay.say_outcome) (fuel a : nat) :
  fst (SafeSay.say_loop calls a fuel) = true <->
  exists k, (k < fuel)%nat /\ calls (a + k)%nat = SafeSay.Sent /\
    forall j, (j < k)%nat -> calls (a + j)%nat = SafeSay.RateLimited.
Proof.
  revert a. induction fuel as [|fuel IH]; intros a; simpl.
  - split; [discriminate | intros [k [Hk _]]; lia].
  - destruct (calls a) eqn:Ea.
    + split; [intros _ | reflexivity].
      exists 0%nat. rewrite Nat.add_0_r. split; [lia|]. split; [exact Ea | intros j Hj; lia].
    + destruct (SafeSay.say_loop calls (S a) fuel) as [r waits] eqn:El. simpl.
      specialize (IH (S a)). rewrite El in IH. simpl in IH. rewrite IH.
      split.
      * intros [k [Hk [Hs Hr]]]. exists (S k). split; [lia|].
        split; [rewrite <- Hs; f_equal; lia|].
        intros j Hj. destruct j as [|j]; [rewrite Nat.add_0_r; exact Ea|].
        replace (a + S j)%nat with (S a + j)%nat by lia. apply Hr. lia.
      * intros [k [Hk [Hs Hr]]]. destruct k as [|k].
        { rewrite Nat.add_0_r, Ea in Hs. discriminate. }
        exists k. split; [lia|]. split.
        { rewrite Nat.add_succ_r in Hs. exact Hs. }
        intros j Hj. rewrite <- Nat.add_succ_r. apply Hr. lia.
    + split; [discriminate|]. intros [k [Hk [Hs Hr]]].
      destruct k as [|k]; [rewrite Nat.add_0_r, Ea in Hs; discriminate|].
      specialize (Hr 0%nat ltac:(lia)). rewrite Nat.add_0_r, Ea in Hr. discriminate.
    + split; [discriminate|]. intros [k [Hk [Hs Hr]]].
      destruct k as [|k]; [rewrite Nat.add_0_r, Ea in Hs; discriminate|].
      specialize (Hr 0%nat ltac:(lia)). rewrite Nat.add_0_r, Ea in Hr. discriminate.
Qed.

(** X7: [safe_say] returns True exactly when some attempt below
    [max_retries] succeeds and every earlier attempt was rate limited; any
    other Slack error or exception ends the retries with False. *)
Theorem safe_say_true_iff (calls : nat -> SafeSay.say_outcome) (max_retries : nat) :
  fst (SafeSay.safe_say calls max_retries) = true <->
  exists k, (k < max_retries)%nat /\ calls k = SafeSay.Sent /\
    forall j, (j < k)%nat -> calls j = SafeSay.RateLimited.
Proof.
  unfold SafeSay.safe_say. apply say_loop_success.
Qed.

Lemma say_loop_waits (calls : nat -> SafeSay.say_outcome) (fuel a : nat) :
  exists m, (m <= fuel)%nat /\
    snd (SafeSay.say_loop calls a fuel) = map (fun j => (2 ^ Z.of_nat j)%Z) (seq a m) /\
    (forall j, (j < m)%nat -> calls (a + j)%nat = SafeSay.RateLimited) /\
    ((m < fuel)%nat -> calls (a + m)%nat <> SafeSay.RateLimited) /\
    (fst (SafeSay.say_loop calls a fuel) = true -> (m < fuel)%nat).
Proof.
  revert a. induction fuel as [|fuel IH]; intros a; simpl.
  - exists 0%nat. repeat split; [lia | intros j Hj; lia | intros H; lia | discriminate].
  - destruct (calls a) eqn:Ea.
    + exists 0%nat. repeat split; [lia | intros j Hj; lia | | intros _; lia].
      rewrite Nat.add_0_r, Ea. discriminate.
    + destruct (IH (S a)) as [m [Hm [Hw [Hr [Hn Ht]]]]].
      destruct (SafeSay.say_loop calls (S a) fuel) as [r waits]. simpl in *.
      exists (S m). split; [lia|]. split; [rewrite Hw; reflexivity|]. split; [|split].
      * intros j Hj. destruct j as [|j]; [rewrite Nat.add_0_r; exact Ea|].
        replace (a + S j)%nat with (S a + j)%nat by lia. apply Hr. lia.
      * intros Hlt. replace (a + S m)%nat with (S a + m)%nat by lia. apply Hn. lia.
      * intros H. specialize (Ht H). lia.
    + exists 0%nat. repeat split; [lia | intros j Hj; lia | | discriminate].
      rewrite Nat.add_0_r, Ea. discriminate.
    + exists 0%nat. repeat split; [lia | intros j Hj; lia | | discriminate].
      rewrite Nat.add_0_r, Ea. discriminate.
Qed.

Lemma pow2_sum (a m : nat) :
  fold_right Z.add 0%Z (map (fun j => (2 ^ Z.of_nat j)%Z) (seq a m)) =
  (2 ^ Z.of_nat (a + m) - 2 ^ Z.of_nat a)%Z.
Proof.
  revert a. induction m as [|m IH]; intros a; simpl.
  - rewrite Nat.add_0_r. lia.
  - rewrite IH. replace (a + S m)%nat with (S a + m)%nat by lia.
    rewrite (Nat2Z.inj_succ a), Z.pow_succ_r by lia. lia.
Qed.

(** X8: the waits of [safe_say] are [1, 2, 4, ...], one per rate-limited
    attempt: with [m] waits, the first [m] attempts were rate limited and
    attempt [m], when it is made, was not; there are at most
    [max_retries] waits (fewer when it succeeds); when every attempt is
    rate limited it returns False after waiting [2^max_retries - 1]
    seconds in all. *)
Theorem safe_say_backoff (calls : nat -> SafeSay.say_outcome) (max_retries : nat) :
  (exists m, (m <= max_retries)%nat /\
     snd (SafeSay.safe_say calls max_retries) = map (fun j => (2 ^ Z.of_nat j)%Z) (seq 0 m) /\
     (forall j, (j < m)%nat -> calls j = SafeSay.RateLimited) /\
     ((m < max_retries)%nat -> calls m <> SafeSay.RateLimited) /\
     (fst (SafeSay.safe_say calls max_retries) = true -> (m < max_retries)%nat)) /\
  ((forall j, (j < max_retries)%nat -> calls j = SafeSay.RateLimited) ->
   SafeSay.safe_say calls max_retries =
     (false, map (fun j => (2 ^ Z.of_nat j)%Z) (seq 0 max_retries)) /\
   fold_right Z.add 0%Z (snd (SafeSay.safe_say calls max_retries)) =
     (2 ^ Z.of_nat max_retries - 1)%Z).
Proof.
  unfold SafeSay.safe_say. split.
  - destruct (say_loop_waits calls max_retries 0) as [m [Hm [Hw [Hr [Hn Ht]]]]].
    exists m. auto.
  - intros Hall.
    assert (Hfull : forall fuel a, (forall j, (j < fuel)%nat -> calls (a + j)%nat = SafeSay.RateLimited) ->
              SafeSay.say_loop calls a fuel = (false, map (fun j => (2 ^ Z.of_nat j)%Z) (seq a fuel))).
    { induction fuel as [|fuel IH]; intros a Hr; [reflexivity|].
      simpl. assert (H0 := Hr 0%nat ltac:(lia)). rewrite Nat.add_0_r in H0.
      rewrite H0, IH; [reflexivity|].
      intros j Hj. replace (S a + j)%nat with (a + S j)%nat by lia. apply Hr. lia. }
    rewrite (Hfull max_retries 0%nat Hall). split; [reflexivity|].
    simpl snd. rewrite pow2_sum. reflexivity.
Qed.

Lemma safe_say_backoff_witness :
  (forall j, (j < 3)%nat -> (fun _ : nat => SafeSay.RateLimited) j = SafeSay.RateLimited) /\
  fold_right Z.add 0%Z (snd (SafeSay.safe_say (fun _ => SafeSay.RateLimited) 3)) = 7%Z.
Proof.
  assert (Hall : forall j, (j < 3)%nat -> (fun _ : nat => SafeSay.RateLimited) j = SafeSay.RateLimited)
    by (intros; reflexivity).
  split; [exact Hall|].
  destruct (safe_say_backoff (fun _ => SafeSay.RateLimited) 3) as [_ H].
  destruct (H Hall) as [_ Hs]. rewrite Hs. reflexivity.
Defined.

(** ** Airtable users and the survey DMs *)





Lemma send_dm_other_users (st : ConvState.conv_store) (out : Notify.dm_outcome) (u name v : string) :
  u <> v ->
  ConvState.get_conversation_state (fst (Notify.send_dm_to_user_id st out u name)) v =
  ConvState.get_conversation_state st v.
Proof.
  intros Hne. destruct out as [| |ts]; simpl; try reflexivity.
  rewrite safe_update_state. destruct (String.eqb u v) eqn:E; [|reflexivity].
  apply String.eqb_eq in E. congruence.
Qed.

Lemma send_all_count (deliver : string -> Notify.dm_outcome) (n i : nat)
    (users : list Notify.user_entry) (st : ConvState.conv_store) (c : nat) :
  fst (fst (Notify.send_all deliver n i users st c)) = (c + length users)%nat.
Proof.
  revert i st c. induction users as [|u rest IH]; intros i st c; simpl; [lia|].
  destruct (Notify.send_dm_to_user_id st (deliver (Notify.uid u)) (Notify.uid u) (Notify.uname u))
    as [st1 w1].
  specialize (IH (S i) st1 (S c)).
  destruct (Notify.send_all deliver n (S i) rest st1 (S c)) as [[cnt st2] w3]. simpl in *. lia.
Qed.

Lemma send_dm_no_long_pause (st : ConvState.conv_store) (out : Notify.dm_outcome) (u name : string) :
  filter (fun q => Qeq_bool q 2) (snd (Notify.send_dm_to_user_id st out u name)) = [].
Proof. destruct out; reflexivity. Qed.

Lemma send_all_pauses (deliver : string -> Notify.dm_outcome) (n i : nat)
    (users : list Notify.user_entry) (st : ConvState.conv_store) (c : nat) :
  (i + length users = S n)%nat ->
  length (filter (fun q => Qeq_bool q 2) (snd (Notify.send_all deliver n i users st c))) =
    (length users - 1)%nat.
Proof.
  revert i st c. induction users as [|u rest IH]; intros i st c Hlen; simpl; [reflexivity|].
  pose proof (send_dm_no_long_pause st (deliver (Notify.uid u)) (Notify.uid u) (Notify.uname u)) as Hw.
  destruct (Notify.send_dm_to_user_id st (deliver (Notify.uid u)) (Notify.uid u) (Notify.uname u))
    as [st1 w1].
  simpl in Hw, Hlen. specialize (IH (S i) st1 (S c)).
  destruct (Notify.send_all deliver n (S i) rest st1 (S c)) as [[cnt st2] w3]. simpl in *.
  rewrite !filter_app, !length_app, Hw. simpl.
  destruct rest as [|r rest'].
  - simpl in Hlen. assert (Hi : (i <? n)%nat = false) by (apply Nat.ltb_ge; lia).
    rewrite Hi. simpl. rewrite IH by (simpl; lia). reflexivity.
  - assert (Hi : (i <? n)%nat = true) by (apply Nat.ltb_lt; simpl in Hlen; lia).
    rewrite Hi. simpl. rewrite IH by lia. simpl. lia.
Qed.

(** X10: [notify_users_in_table] returns 0 when the table yields no user,
    1 in test mode, and otherwise the number of users read, whatever
    happens to each DM (every DM failure is caught inside
    [send_dm_to_user_id]); in the latter case it pauses 2 seconds between
    consecutive users, [n - 1] times for [n] users. *)
Theorem notify_count_and_pauses (cfg : Notify.config) (records : option (list Notify.fields))
    (deliver : string -> Notify.dm_outcome) (st : ConvState.conv_store)
    (table_id column_name : option string) (test_mode : bool) :
  let users := fst (Notify.get_user_ids_from_table cfg records table_id column_name "Name") in
  let res := Notify.notify_users_in_table cfg records deliver st table_id column_name test_mode in
  fst (fst res) = (match users with
                   | [] => 0
                   | _ :: _ => if test_mode then 1 else length users
                   end)%nat /\
  (test_mode = false ->
   length (filter (fun q => Qeq_bool q 2) (snd res)) = (length users - 1)%nat).
Proof.
  intros users res. subst res. unfold Notify.notify_users_in_table.
  fold users.
  destruct (Notify.get_user_ids_from_table cfg records table_id column_name "Name") as [us tbl].
  simpl in users. subst users.
  destruct us as [|first rest]; [split; reflexivity|].
  destruct test_mode.
  - destruct (Notify.send_dm_to_user_id st _ _ _). split; [reflexivity | discriminate].
  - split; [rewrite send_all_count; reflexivity|].
    intros _. apply send_all_pauses. reflexivity.
Qed.

Lemma send_all_state_cons (deliver : string -> Notify.dm_outcome) (n i : nat)
    (u : Notify.user_entry) (rest : list Notify.user_entry) (st : ConvState.conv_store) (c : nat) :
  snd (fst (Notify.send_all deliver n i (u :: rest) st c)) =
  snd (fst (Notify.send_all deliver n (S i) rest
     (fst (Notify.send_dm_to_user_id st (deliver (Notify.uid u)) (Notify.uid u) (Notify.uname u)))
     (S c))).
Proof.
  simpl. destruct (Notify.send_dm_to_user_id st _ _ _) as [st1 w1]. simpl.
  destruct (Notify.send_all deliver n (S i) rest st1 (S c)) as [[cnt st2] w3]. reflexivity.
Qed.

Lemma send_all_others (deliver : string -> Notify.dm_outcome) (n i : nat)
    (users : list Notify.user_entry) (st : ConvState.conv_store) (c : nat) (v : string) :
  ~ In v (map Notify.uid users) ->
  ConvState.get_conversation_state (snd (fst (Notify.send_all deliver n i users st c))) v =
  ConvState.get_conversation_state st v.
Proof.
  revert i st c. induction users as [|u rest IH]; intros i st c Hv; [reflexivity|].
  simpl in Hv. rewrite send_all_state_cons, IH by (intros H; apply Hv; right; exact H).
  apply send_dm_other_users. intros H. apply Hv. left. exact H.
Qed.

Lemma send_dm_delivered_keys (st : ConvState.conv_store) (u name ts : string) :
  Dict.get "step" (ConvState.get_conversation_state
     (fst (Notify.send_dm_to_user_id st (Notify.Delivered ts) u name)) u) =
    Some (ConvState.VStr "not_started") /\
  Dict.get "thread_ts" (ConvState.get_conversation_state
     (fst (Notify.send_dm_to_user_id st (Notify.Delivered ts) u name)) u) =
    Some (ConvState.VStr ts).
Proof.
  simpl. rewrite safe_update_state, String.eqb_refl, !dict_update_get. split; reflexivity.
Qed.

Lemma send_all_delivered (deliver : string -> Notify.dm_outcome) (n i : nat)
    (users : list Notify.user_entry) (st : ConvState.conv_store) (c : nat) (v ts : string) :
  deliver v = Notify.Delivered ts -> In v (map Notify.uid users) ->
  let st' := snd (fst (Notify.send_all deliver n i users st c)) in
  Dict.get "step" (ConvState.get_conversation_state st' v) = Some (ConvState.VStr "not_started") /\
  Dict.get "thread_ts" (ConvState.get_conversation_state st' v) = Some (ConvState.VStr ts).
Proof.
  intros Hd. revert i st c. induction users as [|u rest IH]; intros i st c Hin; [destruct Hin|].
  intros st'. subst st'. rewrite send_all_state_cons. simpl in Hin.
  destruct (in_dec String.string_dec v (map Notify.uid rest)) as [Hr|Hr].
  - apply IH. exact Hr.
  - destruct Hin as [Hu|Hin]; [|contradiction]. rewrite Hu, send_all_others by exact Hr.
    rewrite Hd. apply send_dm_delivered_keys.
Qed.

(** X11: outside test mode, [notify_users_in_table] leaves the
    conversation state of every user not read from the table untouched, and
    every listed user whose DM is delivered ends with step "not_started"
    and the DM's timestamp as [thread_ts]. *)
Theorem notify_state_effect (cfg : Notify.config) (records : option (list Notify.fields))
    (deliver : string -> Notify.dm_outcome) (st : ConvState.conv_store)
    (table_id column_name : option string) (v ts : string) :
  let users := fst (Notify.get_user_ids_from_table cfg records table_id column_name "Name") in
  let st' := snd (fst (Notify.notify_users_in_table cfg records deliver st table_id column_name false)) in
  (~ In v (map Notify.uid users) ->
   ConvState.get_conversation_state st' v = ConvState.get_conversation_state st v) /\
  (In v (map Notify.uid users) -> deliver v = Notify.Delivered ts ->
   Dict.get "step" (ConvState.get_conversation_state st' v) = Some (ConvState.VStr "not_started") /\
   Dict.get "thread_ts" (ConvState.get_conversation_state st' v) = Some (ConvState.VStr ts)).
Proof.
  intros users st'. subst st'. unfold Notify.notify_users_in_table. fold users.
  destruct (Notify.get_user_ids_from_table cfg records table_id column_name "Name") as [us tbl].
  simpl in users. subst users.
  destruct us as [|first rest].
  - split; [reflexivity | intros []].
  - split.
    + apply send_all_others.
    + intros Hin Hd. apply send_all_delivered; assumption.
Qed.

Lemma notify_state_effect_witness :
  let recs := [[("Slack ID", "U1"); ("Name", "Ann")]] in
  let cfg := Notify.mk_config "Members" "Slack ID" in
  In "U1" (map Notify.uid (fst (Notify.get_user_ids_from_table cfg (Some recs) None None "Name"))) /\
  Dict.get "thread_ts" (ConvState.get_conversation_state
     (snd (fst (Notify.notify_users_in_table cfg (Some recs) (fun _ => Notify.Delivered "171.5")
                 [] None None false))) "U1") = Some (ConvState.VStr "171.5").
Proof.
  intros recs cfg.
  assert (Hin : In "U1" (map Notify.uid (fst (Notify.get_user_ids_from_table cfg (Some recs) None None "Name"))))
    by (simpl; left; reflexivity).
  split; [exact Hin|].
  destruct (notify_state_effect cfg (Some recs) (fun _ => Notify.Delivered "171.5") [] None None "U1" "171.5")
    as [_ H].
  exact (proj2 (H Hin eq_refl)).
Defined.

(** ** Writing to the graph *)

Lemma key_eqb_iff (a b : GraphDB.edge_key) : GraphDB.key_eqb a b = true <-> a = b.
Proof.
  destruct a as [[u1 r1] t1], b as [[u2 r2] t2]. simpl.
  rewrite !andb_true_iff, !String.eqb_eq. split.
  - intros [[-> ->] ->]. reflexivity.
  - intros H. injection H as -> -> ->. auto.
Qed.

Lemma eget_eset (k k0 : GraphDB.edge_key) (v : GraphDB.rel_props) (es : list (GraphDB.edge_key * GraphDB.rel_props)) :
  GraphDB.eget k (GraphDB.eset k0 v es) = if GraphDB.key_eqb k0 k then Some v else GraphDB.eget k es.
Proof.
  induction es as [|[k' v'] es IH]; simpl; [reflexivity|].
  destruct (GraphDB.key_eqb k' k0) eqn:E1.
  - apply key_eqb_iff in E1. subst k'. simpl. destruct (GraphDB.key_eqb k0 k); reflexivity.
  - simpl. rewrite IH. destruct (GraphDB.key_eqb k0 k) eqn:E2; [|reflexivity].
    apply key_eqb_iff in E2. subst k. rewrite E1. reflexivity.
Qed.

Lemma eset_in (k k0 : GraphDB.edge_key) (p v : GraphDB.rel_props) (es : list (GraphDB.edge_key * GraphDB.rel_props)) :
  In (k, p) (GraphDB.eset k0 v es) -> k = k0 \/ In (k, p) es.
Proof.
  induction es as [|[k' v'] es IH]; simpl; intros H.
  - destruct H as [H|[]]. injection H as -> ->. auto.
  - destruct (GraphDB.key_eqb k' k0) eqn:E; simpl in H; destruct H as [H|H].
    + injection H as -> ->. left. apply key_eqb_iff. exact E.
    + right. right. exact H.
    + right. left. exact H.
    + destruct (IH H); auto.
Qed.

Lemma norm_valid (r0 : string) :
  Expand.mem (if Expand.mem r0 GraphDB.valid_relationships then r0 else "MENTIONS")
    GraphDB.valid_relationships = true.
Proof. destruct (Expand.mem r0 GraphDB.valid_relationships) eqn:E; [exact E | reflexivity]. Qed.

Lemma context_of_valid (r : string) :
  Expand.mem r GraphDB.valid_relationships = true ->
  exists ctx, Dict.get r GraphDB.context_map = Some ctx.
Proof.
  unfold Expand.mem, GraphDB.valid_relationships, GraphDB.context_map.
  cbn [existsb Dict.get]. intros H. rewrite !(String.eqb_sym r) in H.
  revert H.
  destruct (String.eqb "MENTIONS" r); [eauto|].
  destruct (String.eqb "INTERESTED_IN" r); [eauto|].
  destruct (String.eqb "WORKING_ON" r); [eauto|].
  destruct (String.eqb "IS_EXPERT_IN" r); [eauto|].
  discriminate.
Qed.

Lemma merge_step (g : GraphDB.db) (u d ts : string) (p : string * string) :
  let r := if Expand.mem (snd p) GraphDB.valid_relationships then snd p else "MENTIONS" in
  let k0 := (u, r, fst p) in
  exists ctx, Dict.get r GraphDB.context_map = Some ctx /\
  GraphDB.merge_relationship g u d ts p = Some (GraphDB.mk_db
    (Dict.set u d (GraphDB.users g))
    (if Expand.mem (fst p) (GraphDB.topic_nodes g) then GraphDB.topic_nodes g
     else app (GraphDB.topic_nodes g) [fst p])
    (match GraphDB.eget k0 (GraphDB.edges g) with
     | None => GraphDB.eset k0 (GraphDB.mk_props 1 ts ts ctx) (GraphDB.edges g)
     | Some x => GraphDB.eset k0 (GraphDB.mk_props (GraphDB.count x + 1) (GraphDB.firstMentioned x) ts
                                   (GraphDB.context x)) (GraphDB.edges g)
     end)).
Proof.
  cbv zeta. destruct (context_of_valid _ (norm_valid (snd p))) as [ctx H].
  exists ctx. split; [exact H|].
  destruct p as [t r0]. unfold GraphDB.merge_relationship.
  cbv beta iota zeta. cbn [fst snd] in H |- *. rewrite H. reflexivity.
Qed.

Lemma merge_edges (k k0 : GraphDB.edge_key) (es : list (GraphDB.edge_key * GraphDB.rel_props)) (ts ctx : string) :
  GraphDB.eget k (match GraphDB.eget k0 es with
     | None => GraphDB.eset k0 (GraphDB.mk_props 1 ts ts ctx) es
     | Some x => GraphDB.eset k0 (GraphDB.mk_props (GraphDB.count x + 1) (GraphDB.firstMentioned x) ts
                                   (GraphDB.context x)) es
     end) =
  if GraphDB.key_eqb k0 k then
    Some (match GraphDB.eget k0 es with
          | None => GraphDB.mk_props 1 ts ts ctx
          | Some x => GraphDB.mk_props (GraphDB.count x + 1) (GraphDB.firstMentioned x) ts (GraphDB.context x)
          end)
  else GraphDB.eget k es.
Proof. destruct (GraphDB.eget k0 es); apply eget_eset. Qed.

Lemma update_cons (g g1 : GraphDB.db) (u d ts : string) (p : string * string) (rest : list (string * string)) :
  GraphDB.merge_relationship g u d ts p = Some g1 ->
  GraphDB.write_all g u d (p :: rest) ts =
  GraphDB.write_all g1 u d rest ts.
Proof. intros H. unfold GraphDB.write_all. simpl. rewrite H. reflexivity. Qed.

Lemma update_some (trs : list (string * string)) (g : GraphDB.db) (u d ts : string) :
  exists g', GraphDB.write_all g u d trs ts = Some g'.
Proof.
  revert g. induction trs as [|p rest IH]; intros g; [exists g; reflexivity|].
  destruct (merge_step g u d ts p) as [ctx [_ Hm]].
  rewrite (update_cons _ _ _ _ _ _ _ Hm). apply IH.
Qed.

Lemma topic_nodes_in (t t' : string) (tn : list string) :
  In t' (if Expand.mem t tn then tn else app tn [t]) <-> In t' tn \/ t' = t.
Proof.
  destruct (Expand.mem t tn) eqn:E.
  - unfold Expand.mem in E. apply existsb_exists in E. destruct E as [x [Hx Hxe]].
    apply String.eqb_eq in Hxe. subst x. split; [auto|]. intros [H| ->]; assumption.
  - rewrite in_app_iff. simpl. split; intros [H|H]; auto.
    + destruct H as [H|[]]. auto.
Qed.

(** The writes of the loop never fail: an unknown relationship type is
    replaced by MENTIONS before [context_map] is read. *)
Lemma write_all_total_valid (g : GraphDB.db) (u d ts : string) (trs : list (string * string)) :
  exists g', GraphDB.write_all g u d trs ts = Some g' /\
  ((forall k p, In (k, p) (GraphDB.edges g) -> Expand.mem (snd (fst k)) GraphDB.valid_relationships = true) ->
   forall k p, In (k, p) (GraphDB.edges g') -> Expand.mem (snd (fst k)) GraphDB.valid_relationships = true) /\
  (forall t, In t (GraphDB.topic_nodes g') <-> In t (GraphDB.topic_nodes g) \/ In t (map fst trs)) /\
  (forall v, v <> u -> Dict.get v (GraphDB.users g') = Dict.get v (GraphDB.users g)) /\
  (trs <> [] -> Dict.get u (GraphDB.users g') = Some d).
Proof.
  revert g. induction trs as [|p rest IH]; intros g.
  - exists g. split; [reflexivity|]. split; [auto|]. split; [simpl; tauto|].
    split; [reflexivity | intros H; contradiction].
  - destruct (merge_step g u d ts p) as [ctx [_ Hm]].
    rewrite (update_cons _ _ _ _ _ _ _ Hm).
    destruct (IH (GraphDB.mk_db (Dict.set u d (GraphDB.users g))
       (if Expand.mem (fst p) (GraphDB.topic_nodes g) then GraphDB.topic_nodes g
        else app (GraphDB.topic_nodes g) [fst p])
       (match GraphDB.eget (u, if Expand.mem (snd p) GraphDB.valid_relationships then snd p else "MENTIONS", fst p)
                (GraphDB.edges g) with
        | None => GraphDB.eset (u, if Expand.mem (snd p) GraphDB.valid_relationships then snd p else "MENTIONS", fst p)
                    (GraphDB.mk_props 1 ts ts ctx) (GraphDB.edges g)
        | Some x => GraphDB.eset (u, if Expand.mem (snd p) GraphDB.valid_relationships then snd p else "MENTIONS", fst p)
                      (GraphDB.mk_props (GraphDB.count x + 1) (GraphDB.firstMentioned x) ts (GraphDB.context x))
                      (GraphDB.edges g)
        end)))
      as [g' [Hu [Hv [Ht [Ho Hd]]]]].
    exists g'. split; [exact Hu|]. simpl in Hv, Ht, Ho, Hd. split; [|split; [|split]].
    + intros Hg. apply Hv. intros k q Hin.
      destruct (GraphDB.eget _ (GraphDB.edges g));
        (apply eset_in in Hin; destruct Hin as [->|Hin]; [apply norm_valid | exact (Hg k q Hin)]).
    + intros t. rewrite Ht, topic_nodes_in. simpl. split.
      * intros [[H|H]|H]; [left; exact H | right; left; symmetry; exact H | right; right; exact H].
      * intros [H|[H|H]]; [left; left; exact H | left; right; symmetry; exact H | right; exact H].
    + intros v Hne. rewrite Ho by exact Hne. apply dict_get_set_neq. congruence.
    + intros _. destruct rest as [|p' rest'].
      * simpl in Hu. injection Hu as <-. simpl. apply dict_get_set_eq.
      * apply Hd. discriminate.
Qed.

Lemma filter_length_zero {A} (f : A -> bool) (l : list A) :
  length (filter f l) = 0%nat -> forall x, In x l -> f x = false.
Proof.
  intros H x Hx. apply length_zero_iff_nil in H.
  destruct (f x) eqn:E; [|reflexivity].
  assert (Hf : In x (filter f l)) by (apply filter_In; auto).
  rewrite H in Hf. destruct Hf.
Qed.

Lemma update_untouched (trs : list (string * string)) (g g' : GraphDB.db) (u d ts : string) (k : GraphDB.edge_key) :
  GraphDB.write_all g u d trs ts = Some g' ->
  (forall p, In p trs ->
     GraphDB.key_eqb (u, if Expand.mem (snd p) GraphDB.valid_relationships then snd p else "MENTIONS", fst p) k = false) ->
  GraphDB.eget k (GraphDB.edges g') = GraphDB.eget k (GraphDB.edges g).
Proof.
  revert g. induction trs as [|p rest IH]; intros g Hu Hk.
  - injection Hu as <-. reflexivity.
  - destruct (merge_step g u d ts p) as [ctx [_ Hm]].
    rewrite (update_cons _ _ _ _ _ _ _ Hm) in Hu.
    rewrite (IH _ Hu) by (intros q Hq; apply Hk; right; exact Hq).
    cbn [GraphDB.edges]. rewrite merge_edges, (Hk p (or_introl eq_refl)). reflexivity.
Qed.

Lemma write_all_edge_counts (g : GraphDB.db) (u d ts : string) (trs : list (string * string))
    (k : GraphDB.edge_key) :
  let n := length (filter (fun p => GraphDB.key_eqb
             (u, if Expand.mem (snd p) GraphDB.valid_relationships then snd p else "MENTIONS", fst p) k) trs) in
  match GraphDB.write_all g u d trs ts with
  | None => False
  | Some g' =>
      (n = 0%nat -> GraphDB.eget k (GraphDB.edges g') = GraphDB.eget k (GraphDB.edges g)) /\
      ((0 < n)%nat -> exists r', GraphDB.eget k (GraphDB.edges g') = Some r' /\
         GraphDB.count r' = ((match GraphDB.eget k (GraphDB.edges g) with
                              | Some x => GraphDB.count x | None => 0 end) + Z.of_nat n)%Z /\
         GraphDB.lastMentioned r' = ts /\
         match GraphDB.eget k (GraphDB.edges g) with
         | Some x => GraphDB.firstMentioned r' = GraphDB.firstMentioned x /\
                     GraphDB.context r' = GraphDB.context x
         | None => GraphDB.firstMentioned r' = ts /\
                   Dict.get (snd (fst k)) GraphDB.context_map = Some (GraphDB.context r')
         end)
  end.
Proof.
  intros n. destruct (update_some trs g u d ts) as [g' Hu]. rewrite Hu. subst n.
  split.
  - intros H0. apply (update_untouched trs g g' u d ts k Hu). apply filter_length_zero. exact H0.
  - revert g Hu. induction trs as [|p rest IH]; intros g Hu Hpos; [simpl in Hpos; lia|].
    destruct (merge_step g u d ts p) as [ctx [Hctx Hm]].
    rewrite (update_cons _ _ _ _ _ _ _ Hm) in Hu.
    cbn [filter] in Hpos |- *.
    destruct (GraphDB.key_eqb (u, if Expand.mem (snd p) GraphDB.valid_relationships then snd p else "MENTIONS", fst p) k)
      eqn:Hit.
    + pose proof Hit as Hk. apply key_eqb_iff in Hk. subst k.
      destruct (Nat.eq_dec (length (filter (fun q => GraphDB.key_eqb
             (u, if Expand.mem (snd q) GraphDB.valid_relationships then snd q else "MENTIONS", fst q)
             (u, if Expand.mem (snd p) GraphDB.valid_relationships then snd p else "MENTIONS", fst p)) rest)) 0)
        as [Hz|Hz].
      * rewrite (update_untouched rest _ g' u d ts _ Hu (filter_length_zero _ _ Hz)).
        cbn [GraphDB.edges]. rewrite merge_edges, Hit. eexists. split; [reflexivity|].
        cbn [length]. rewrite Hz.
        destruct (GraphDB.eget _ (GraphDB.edges g)) as [x|]; simpl.
        -- split; [lia|]. auto.
        -- split; [lia|]. auto.
      * destruct (IH _ Hu ltac:(lia)) as [r' [Hr' [Hc [Hl Hf]]]].
        cbn [GraphDB.edges] in Hc, Hf. rewrite merge_edges, Hit in Hc, Hf.
        exists r'. split; [exact Hr'|]. split; [|split; [exact Hl|]].
        -- rewrite Hc. cbn [length]. rewrite Nat2Z.inj_succ.
           destruct (GraphDB.eget _ (GraphDB.edges g)); cbn [GraphDB.count]; lia.
        -- destruct (GraphDB.eget _ (GraphDB.edges g));
             cbn [GraphDB.firstMentioned GraphDB.context] in Hf; cbn [fst snd].
           ++ exact Hf.
           ++ destruct Hf as [Hf1 Hf2]. split; [exact Hf1|]. rewrite Hf2. exact Hctx.
    + destruct (IH _ Hu Hpos) as [r' [Hr' [Hc [Hl Hf]]]].
      cbn [GraphDB.edges] in Hc, Hf. rewrite merge_edges, Hit in Hc, Hf.
      exists r'. auto.
Qed.

Lemma forallb_seq_false (f : nat -> bool) (a n : nat) :
  forallb f (seq a n) = false -> exists j, (j < n)%nat /\ f (a + j)%nat = false.
Proof.
  revert a. induction n as [|n IH]; intros a; simpl; [discriminate|].
  destruct (f a) eqn:E; simpl; intros H.
  - destruct (IH (S a) H) as [j [Hj Hf]]. exists (S j). split; [lia|].
    replace (a + S j)%nat with (S a + j)%nat by lia. exact Hf.
  - exists 0%nat. split; [lia|]. rewrite Nat.add_0_r. exact E.
Qed.

Lemma run_loop_write_all (c : GraphDB.conn) (i : nat) (g : GraphDB.db) (u d ts : string)
    (trs : list (string * string)) :
  GraphDB.run_loop c i g u d ts trs =
  if forallb (GraphDB.run_ok c) (seq i (length trs)) then GraphDB.write_all g u d trs ts else None.
Proof.
  revert i g. induction trs as [|p rest IH]; intros i g; [reflexivity|].
  destruct (merge_step g u d ts p) as [ctx [_ Hm]].
  cbn [GraphDB.run_loop]. rewrite Hm. rewrite (update_cons _ _ _ _ _ _ _ Hm).
  cbn [length seq forallb]. destruct (GraphDB.run_ok c i); [apply IH | reflexivity].
Qed.

Lemma get_driver_none (c : GraphDB.conn) :
  GraphDB.get_driver c = None <->
  GraphDB.driver_cached c = false /\
  (GraphDB.uri_set c = false \/ GraphDB.password_set c = false \/ GraphDB.driver_ok c = false).
Proof.
  unfold GraphDB.get_driver.
  destruct (GraphDB.driver_cached c), (GraphDB.uri_set c), (GraphDB.password_set c),
    (GraphDB.driver_ok c); cbn; intuition congruence.
Qed.

Lemma update_none_iff (c : GraphDB.conn) (g : GraphDB.db) (u d ts : string)
    (trs : list (string * string)) :
  GraphDB.update_knowledge_graph_with_relationships c g u d trs ts = None <->
  GraphDB.get_driver c = None \/ GraphDB.session_ok c = false \/
  exists i, (i < length trs)%nat /\ GraphDB.run_ok c i = false.
Proof.
  unfold GraphDB.update_knowledge_graph_with_relationships.
  destruct (GraphDB.get_driver c) as [[]|]; [|split; [auto | reflexivity]].
  destruct (GraphDB.session_ok c); [|split; [auto | reflexivity]].
  rewrite run_loop_write_all. destruct (update_some trs g u d ts) as [g' Hw]. rewrite Hw.
  destruct (forallb (GraphDB.run_ok c) (seq 0 (length trs))) eqn:Ef.
  - split; [discriminate|]. intros [H|[H|[i [Hi Hr]]]]; try discriminate.
    rewrite forallb_forall in Ef. rewrite (Ef i) in Hr; [discriminate|].
    apply in_seq. lia.
  - split; [intros _ | reflexivity]. right. right.
    destruct (forallb_seq_false _ _ _ Ef) as [j Hj]. exists j. exact Hj.
Qed.

Lemma update_write (c : GraphDB.conn) (g g' : GraphDB.db) (u d ts : string)
    (trs : list (string * string)) :
  GraphDB.update_knowledge_graph_with_relationships c g u d trs ts = Some g' ->
  GraphDB.write_all g u d trs ts = Some g'.
Proof.
  unfold GraphDB.update_knowledge_graph_with_relationships.
  destruct (GraphDB.get_driver c); [|discriminate].
  destruct (GraphDB.session_ok c); [|discriminate].
  rewrite run_loop_write_all. destruct (forallb _ _); [auto | discriminate].
Qed.

(** X12: [update_knowledge_graph_with_relationships] raises exactly when
    the graph store does: when [get_driver()] raises (with no cached
    driver, because [NEO4J_URI] or [NEO4J_PASSWORD] is unset or the driver
    cannot be built), when [driver.session()] fails, or when one of the
    [session.run] calls for the given pairs fails.  An unknown
    relationship type is replaced by MENTIONS before [context_map] is
    read, so no [KeyError] occurs.  When the call returns, every edge still
    has one of the four valid types if every edge had one before; the topic
    nodes are the old ones plus the given topics; the user gets the display
    name, and no other user's name changes. *)
Theorem graph_update_total_valid (c : GraphDB.conn) (g : GraphDB.db) (u d ts : string)
    (trs : list (string * string)) :
  (GraphDB.get_driver c = None <->
     GraphDB.driver_cached c = false /\
     (GraphDB.uri_set c = false \/ GraphDB.password_set c = false \/ GraphDB.driver_ok c = false)) /\
  (GraphDB.update_knowledge_graph_with_relationships c g u d trs ts = None <->
     GraphDB.get_driver c = None \/ GraphDB.session_ok c = false \/
     exists i, (i < length trs)%nat /\ GraphDB.run_ok c i = false) /\
  (forall g', GraphDB.update_knowledge_graph_with_relationships c g u d trs ts = Some g' ->
   ((forall k p, In (k, p) (GraphDB.edges g) -> Expand.mem (snd (fst k)) GraphDB.valid_relationships = true) ->
    forall k p, In (k, p) (GraphDB.edges g') -> Expand.mem (snd (fst k)) GraphDB.valid_relationships = true) /\
   (forall t, In t (GraphDB.topic_nodes g') <-> In t (GraphDB.topic_nodes g) \/ In t (map fst trs)) /\
   (forall v, v <> u -> Dict.get v (GraphDB.users g') = Dict.get v (GraphDB.users g)) /\
   (trs <> [] -> Dict.get u (GraphDB.users g') = Some d)).
Proof.
  split; [apply get_driver_none|]. split; [apply update_none_iff|].
  intros g' Hu. apply update_write in Hu.
  destruct (write_all_total_valid g u d ts trs) as [g'' [Hw H]].
  rewrite Hu in Hw. injection Hw as <-. exact H.
Qed.

(** X13: when [update_knowledge_graph_with_relationships] returns, an
    edge that no given pair hits (after the MENTIONS normalisation) is
    unchanged, and an edge hit [n > 0] times has its count raised by
    exactly [n] (from 0 when it is new), [lastMentioned] set to the
    timestamp, and [firstMentioned] and [context] kept when it existed, or
    set to the timestamp and the context of its type when it is new. *)
Theorem graph_update_edge_counts (c : GraphDB.conn) (g : GraphDB.db) (u d ts : string)
    (trs : list (string * string)) (k : GraphDB.edge_key) (g' : GraphDB.db)
    (Hu : GraphDB.update_knowledge_graph_with_relationships c g u d trs ts = Some g') :
  let n := length (filter (fun p => GraphDB.key_eqb
             (u, if Expand.mem (snd p) GraphDB.valid_relationships then snd p else "MENTIONS", fst p) k) trs) in
  (n = 0%nat -> GraphDB.eget k (GraphDB.edges g') = GraphDB.eget k (GraphDB.edges g)) /\
  ((0 < n)%nat -> exists r', GraphDB.eget k (GraphDB.edges g') = Some r' /\
     GraphDB.count r' = ((match GraphDB.eget k (GraphDB.edges g) with
                          | Some x => GraphDB.count x | None => 0 end) + Z.of_nat n)%Z /\
     GraphDB.lastMentioned r' = ts /\
     match GraphDB.eget k (GraphDB.edges g) with
     | Some x => GraphDB.firstMentioned r' = GraphDB.firstMentioned x /\
                 GraphDB.context r' = GraphDB.context x
     | None => GraphDB.firstMentioned r' = ts /\
               Dict.get (snd (fst k)) GraphDB.context_map = Some (GraphDB.context r')
     end).
Proof.
  pose proof (write_all_edge_counts g u d ts trs k) as H. cbv zeta in H |- *.
  apply update_write in Hu. rewrite Hu in H. exact H.
Qed.

Lemma graph_update_edge_counts_witness :
  match GraphDB.update_knowledge_graph_with_relationships
          (GraphDB.mk_conn true true true true true (fun _ => true))
          (GraphDB.mk_db [] [] []) "U1" "Ada"
          [("LLM", "WORKING_ON"); ("LLM", "bogus"); ("LLM", "MENTIONS")] "t1" with
  | None => False
  | Some g' => exists r', GraphDB.eget ("U1", "MENTIONS", "LLM") (GraphDB.edges g') = Some r' /\
                 GraphDB.count r' = 2%Z /\ GraphDB.firstMentioned r' = "t1"
  end.
Proof.
  destruct (GraphDB.update_knowledge_graph_with_relationships
          (GraphDB.mk_conn true true true true true (fun _ => true))
          (GraphDB.mk_db [] [] []) "U1" "Ada"
          [("LLM", "WORKING_ON"); ("LLM", "bogus"); ("LLM", "MENTIONS")] "t1") as [g'|] eqn:E;
    [|vm_compute in E; discriminate].
  destruct (graph_update_edge_counts _ _ _ _ _ _ ("U1", "MENTIONS", "LLM") g' E) as [_ H].
  destruct (H ltac:(vm_compute; lia)) as [r' [Hr [Hc [_ Hf]]]].
  exists r'. split; [exact Hr|]. split.
  - rewrite Hc. vm_compute. reflexivity.
  - cbn in Hf. apply Hf.
Defined.

(** X14: the legacy [update_knowledge_graph] raises exactly when the
    graph store does ([get_driver()], [driver.session()] or one of the
    [session.run] calls, one per topic), and when it returns it has
    changed no edge whose type is not MENTIONS. *)
Theorem legacy_update_mentions_only (c : GraphDB.conn) (g : GraphDB.db) (u d ts : string)
    (topics : list string) :
  (GraphDB.update_knowledge_graph c g u d topics ts = None <->
     GraphDB.get_driver c = None \/ GraphDB.session_ok c = false \/
     exists i, (i < length topics)%nat /\ GraphDB.run_ok c i = false) /\
  (forall g', GraphDB.update_knowledge_graph c g u d topics ts = Some g' ->
     forall k, snd (fst k) <> "MENTIONS" ->
       GraphDB.eget k (GraphDB.edges g') = GraphDB.eget k (GraphDB.edges g)).
Proof.
  unfold GraphDB.update_knowledge_graph. split.
  - rewrite update_none_iff, length_map. reflexivity.
  - intros g' Hu k Hk. apply update_write in Hu.
    apply (update_untouched _ g g' u d ts k Hu).
    intros p Hp. apply in_map_iff in Hp. destruct Hp as [t [<- _]]. cbn [fst snd].
    destruct (Expand.mem "MENTIONS" GraphDB.valid_relationships).
    all: destruct (GraphDB.key_eqb (u, "MENTIONS", t) k) eqn:E; [|reflexivity].
    all: apply key_eqb_iff in E; subst k; simpl in Hk; contradiction.
Qed.

(** ** Classifier output parsers *)

Lemma parse_item_pair (item : string) :
  (PyStr.has_char "|" (PyStr.strip item) = true ->
   Nlp.parse_item "MENTIONS" item = Nlp.parse_item "IS_EXPERT_IN" item) /\
  (PyStr.has_char "|" (PyStr.strip item) = false ->
   fst (Nlp.parse_item "MENTIONS" item) = fst (Nlp.parse_item "IS_EXPERT_IN" item) /\
   snd (Nlp.parse_item "MENTIONS" item) = "MENTIONS" /\
   snd (Nlp.parse_item "IS_EXPERT_IN" item) = "IS_EXPERT_IN").
Proof.
  unfold Nlp.parse_item. cbv zeta. split; intros H; rewrite H.
  - destruct (PyStr.split_once "|" (PyStr.strip item)) as [[a b]|] eqn:E.
    + reflexivity.
    + (* [split("|", 1)] finds the bar [has_char] saw *)
      exfalso. revert H E. generalize (PyStr.strip item) as s.
      induction s as [|c s IH]; simpl; [discriminate|].
      destruct (Ascii.eqb c "|"); simpl; [discriminate|].
      intros H E. destruct (PyStr.split_once "|" s) as [[a b]|]; [discriminate|].
      exact (IH H eq_refl).
  - simpl. auto.
Qed.

Lemma split_once_spec (sep : ascii) (s : string) :
  match PyStr.split_once sep s with
  | None => PyStr.has_char sep s = false
  | Some (a, b) => s = (a ++ String sep b)%string /\ PyStr.has_char sep a = false
  end.
Proof.
  induction s as [|c s IH]; simpl; [reflexivity|].
  destruct (Ascii.eqb c sep) eqn:E.
  - apply Ascii.eqb_eq in E. subst c. simpl. auto.
  - destruct (PyStr.split_once sep s) as [[a b]|].
    + destruct IH as [-> Ha]. simpl. rewrite E, Ha. auto.
    + rewrite IH. reflexivity.
Qed.

Lemma parse_item_split (d item : string) :
  match PyStr.split_once "|" (PyStr.strip item) with
  | Some (a, b) =>
      PyStr.strip item = (a ++ String "|" b)%string /\ PyStr.has_char "|" a = false /\
      Nlp.parse_item d item = (PyStr.strip a, PyStr.strip b)
  | None =>
      PyStr.has_char "|" (PyStr.strip item) = false /\
      Nlp.parse_item d item = (PyStr.strip (PyStr.strip item), d)
  end.
Proof.
  pose proof (split_once_spec "|" (PyStr.strip item)) as H.
  unfold Nlp.parse_item. cbv zeta.
  destruct (PyStr.split_once "|" (PyStr.strip item)) as [[a b]|] eqn:E.
  - destruct H as [Hs Ha].
    assert (Hb : PyStr.has_char "|" (PyStr.strip item) = true).
    { rewrite Hs. clear. induction a as [|c a IH]; simpl; [reflexivity|].
      rewrite IH. apply orb_true_r. }
    rewrite Hb. auto.
  - rewrite H. auto.
Qed.

(** X16: an item is split at its first '|': when the stripped item is
    [a ++ "|" ++ b] with no '|' in [a], [parse_item] gives
    [(a.strip(), b.strip())] whatever the default; an item with no '|'
    gives the stripped item with the default tag. *)
Theorem parse_item_first_bar (d item : string) :
  match PyStr.split_once "|" (PyStr.strip item) with
  | Some (a, b) =>
      PyStr.strip item = (a ++ String "|" b)%string /\ PyStr.has_char "|" a = false /\
      Nlp.parse_item d item = (PyStr.strip a, PyStr.strip b)
  | None =>
      PyStr.has_char "|" (PyStr.strip item) = false /\
      Nlp.parse_item d item = (PyStr.strip (PyStr.strip item), d)
  end.
Proof. exact (parse_item_split d item). Qed.

(** X15: the two classifier-output parsers read the same items: both give
    one pair per comma-separated piece, with the same topics; the [i]-th
    piece, when its stripped text has a '|', gives the same pair
    [(a.strip(), b.strip())] in both, split at the first '|'; when it has
    none, it gives the stripped piece tagged MENTIONS in the topic parser
    and IS_EXPERT_IN in the profile parser. *)
Theorem parsers_same_items (content : string) :
  map fst (Nlp.parse_topic_relationships content) =
    map fst (Nlp.parse_interest_relationships content) /\
  length (Nlp.parse_topic_relationships content) = length (PyStr.split_on "," content) /\
  length (Nlp.parse_interest_relationships content) = length (PyStr.split_on "," content) /\
  (forall i item, nth_error (PyStr.split_on "," content) i = Some item ->
     match PyStr.split_once "|" (PyStr.strip item) with
     | Some (a, b) =>
         PyStr.has_char "|" (PyStr.strip item) = true /\
         nth_error (Nlp.parse_topic_relationships content) i = Some (PyStr.strip a, PyStr.strip b) /\
         nth_error (Nlp.parse_interest_relationships content) i = Some (PyStr.strip a, PyStr.strip b)
     | None =>
         PyStr.has_char "|" (PyStr.strip item) = false /\
         nth_error (Nlp.parse_topic_relationships content) i =
           Some (PyStr.strip (PyStr.strip item), "MENTIONS") /\
         nth_error (Nlp.parse_interest_relationships content) i =
           Some (PyStr.strip (PyStr.strip item), "IS_EXPERT_IN")
     end).
Proof.
  split; [|split; [|split]].
  - unfold Nlp.parse_topic_relationships, Nlp.parse_interest_relationships.
    induction (PyStr.split_on "," content) as [|item items IH]; [reflexivity|].
    cbn [map]. rewrite IH. f_equal.
    destruct (parse_item_pair item) as [Hbar Hnobar].
    destruct (PyStr.has_char "|" (PyStr.strip item)) eqn:E.
    + rewrite (Hbar eq_refl). reflexivity.
    + exact (proj1 (Hnobar eq_refl)).
  - apply length_map.
  - apply length_map.
  - intros i item Hi.
    unfold Nlp.parse_topic_relationships, Nlp.parse_interest_relationships.
    rewrite !nth_error_map, Hi. cbn [option_map].
    pose proof (parse_item_split "MENTIONS" item) as H1.
    pose proof (parse_item_split "IS_EXPERT_IN" item) as H2.
    pose proof (split_once_spec "|" (PyStr.strip item)) as H3.
    destruct (PyStr.split_once "|" (PyStr.strip item)) as [[a b]|].
    + destruct H1 as [Hs [_ H1]]. destruct H2 as [_ [_ H2]].
      rewrite H1, H2. split; [|auto].
      rewrite Hs. clear. induction a as [|ch a IH]; simpl; [reflexivity|].
      rewrite IH. apply orb_true_r.
    + destruct H1 as [Hn H1]. destruct H2 as [_ H2]. rewrite H1, H2. auto.
Qed.

(** ** Topic expansion *)

Lemma fold_left_inv {A B} (P : A -> Prop) (f : A -> B -> A) (l : list B) (a : A) :
  P a -> (forall x b, In b l -> P x -> P (f x b)) -> P (fold_left f l a).
Proof.
  revert a. induction l as [|b l IH]; intros a Ha Hf; simpl; [exact Ha|].
  apply IH; [apply Hf; [left; reflexivity | exact Ha]|].
  intros x b' Hb. apply Hf. right. exact Hb.
Qed.

Lemma mem_false (t : string) (l : list string) : Expand.mem t l = false -> ~ In t l.
Proof.
  intros H Hin. unfold Expand.mem in H.
  assert (Ht : existsb (String.eqb t) l = true).
  { apply existsb_exists. exists t. split; [exact Hin | apply String.eqb_refl]. }
  congruence.
Qed.

Lemma add_unseen_nodup (acc : list string) (t : string) :
  NoDup acc -> NoDup (Expand.add_unseen acc t).
Proof.
  intros H. unfold Expand.add_unseen. destruct (Expand.mem t acc) eqn:E; [exact H|].
  apply mem_false in E.
  apply (Permutation_NoDup (Permutation_app_comm [t] acc)). simpl. constructor; assumption.
Qed.

Lemma add_unseen_in (acc : list string) (t x : string) :
  In x (Expand.add_unseen acc t) -> In x acc \/ x = t.
Proof.
  unfold Expand.add_unseen. destruct (Expand.mem t acc); [auto|].
  rewrite in_app_iff. simpl. intros [H|[H|[]]]; auto.
Qed.

(** X17: [expand_topics_for_matching] never lists a topic twice when the
    canonical topics are distinct, and after a complete response never
    lists one twice at all (the parsing path drops repeats, also among the
    canonical topics); every topic it returns is a canonical topic or a
    non-empty term of the response text [s]: [t.strip()] for some
    comma-separated piece [t] of some '|'-separated group of [s.strip()]. *)
Theorem expand_distinct_terms (canonical_topics : list string) (resp : response) :
  (NoDup canonical_topics -> NoDup (Expand.expand_topics_for_matching canonical_topics resp)) /\
  (forall s, NoDup (Expand.expand_topics_for_matching canonical_topics (Complete s))) /\
  (forall x, In x (Expand.expand_topics_for_matching canonical_topics resp) ->
     In x canonical_topics \/
     (x <> "" /\ exists s group term, (resp = Complete s \/ resp = Incomplete s) /\
        In group (PyStr.split_on "|" (PyStr.strip s)) /\
        In term (PyStr.split_on "," group) /\
        x = PyStr.strip (PyStr.strip term))).
Proof.
  pose (T := fun content x => x <> "" /\ exists group term,
               In group (PyStr.split_on "|" content) /\
               In term (PyStr.split_on "," group) /\ x = PyStr.strip (PyStr.strip term)).
  assert (Hpg : forall content, NoDup (Expand.parse_groups content) /\
                 forall x, In x (Expand.parse_groups content) -> T content x).
  { intros content. unfold Expand.parse_groups.
    apply (fold_left_inv (fun acc => NoDup acc /\ forall x, In x acc -> T content x)).
    - split; [constructor | intros x []].
    - intros acc g Hg Hacc. apply fold_left_inv; [exact Hacc|].
      intros acc' term Hterm [Hn Hx]. unfold Expand.add_term.
      destruct (PyStr.truthy term) eqn:Et; [|auto].
      split; [apply add_unseen_nodup; exact Hn|].
      intros x Hin. destruct (add_unseen_in _ _ _ Hin) as [H | ->]; [auto|].
      split; [intros ->; discriminate|].
      rewrite map_map in Hterm. apply in_map_iff in Hterm.
      destruct Hterm as [t [Ht Hin']]. exists g, t. auto. }
  assert (Hfc : forall content,
            NoDup (fold_left Expand.add_unseen canonical_topics (Expand.parse_groups content)) /\
            forall x, In x (fold_left Expand.add_unseen canonical_topics (Expand.parse_groups content)) ->
              In x canonical_topics \/ T content x).
  { intros content. destruct (Hpg content) as [Hn Hx].
    apply (fold_left_inv (fun acc => NoDup acc /\ forall x, In x acc -> In x canonical_topics \/ T content x)).
    - split; [exact Hn | intros x Hin; right; auto].
    - intros acc t Ht [Hn' Hx']. split; [apply add_unseen_nodup; exact Hn'|].
      intros x Hin. destruct (add_unseen_in _ _ _ Hin) as [H| ->]; [auto | left; exact Ht]. }
  assert (Hres : forall r, Expand.expand_topics_for_matching canonical_topics r = canonical_topics \/
            exists s, (r = Complete s \/ r = Incomplete s) /\
              Expand.expand_topics_for_matching canonical_topics r =
              fold_left Expand.add_unseen canonical_topics (Expand.parse_groups (PyStr.strip s))).
  { intros r. unfold Expand.expand_topics_for_matching, Expand.expand_body.
    destruct canonical_topics as [|c cs]; [destruct r as [|s|s]; [|destruct (PyStr.truthy s)|]; auto|].
    destruct r as [|s|s]; [auto| |right; exists s; split; [left|]; reflexivity].
    destruct (PyStr.truthy s); [right; exists s; split; [right|]; reflexivity | auto]. }
  split; [|split].
  - intros Hn. destruct (Hres resp) as [-> | [s [_ ->]]]; [exact Hn | apply Hfc].
  - intros s. unfold Expand.expand_topics_for_matching, Expand.expand_body.
    destruct canonical_topics as [|c cs]; [constructor|]. apply Hfc.
  - intros x. destruct (Hres resp) as [-> | [s [Hr ->]]]; [auto|].
    intros Hin. destruct (proj2 (Hfc (PyStr.strip s)) x Hin) as [H | [Hne [group [term [Hg [Ht Hx]]]]]];
      [left; exact H|].
    right. split; [exact Hne|]. exists s, group, term. auto.
Qed.

(** ** Consolidation, ranking and selection of suggestions *)

Lemma dict_get_in {V} (k : string) (v : V) (d : list (string * V)) :
  Dict.get k d = Some v -> In (k, v) d.
Proof.
  induction d as [|[k' v'] d IH]; simpl; [discriminate|].
  destruct (String.eqb k' k) eqn:E; intros H.
  - apply String.eqb_eq in E. subst. injection H as ->. left. reflexivity.
  - right. exact (IH H).
Qed.

Lemma dict_set_in {V} (k k' : string) (v v' : V) (d : list (string * V)) :
  In (k', v') (Dict.set k v d) -> (k' = k /\ v' = v) \/ In (k', v') d.
Proof.
  induction d as [|[k0 v0] d IH]; simpl.
  - intros [H|[]]. injection H as -> ->. auto.
  - destruct (String.eqb k0 k) eqn:E; simpl; intros [H|H].
    + injection H as -> ->. apply String.eqb_eq in E. auto.
    + auto.
    + auto.
    + destruct (IH H); auto.
Qed.

Lemma dict_set_keys {V} (k x : string) (v : V) (d : list (string * V)) :
  In x (map fst (Dict.set k v d)) <-> x = k \/ In x (map fst d).
Proof.
  induction d as [|[k0 v0] d IH]; simpl; [split; [intros [H|[]]; auto | intros [H|[]]; auto]|].
  destruct (String.eqb k0 k) eqn:E; simpl.
  - apply String.eqb_eq in E. subst k0. split; [intros [H|H]; auto | intros [H|[H|H]]; auto].
  - rewrite IH. split; [intros [H|[H|H]]; auto | intros [H|[H|H]]; auto].
Qed.

Lemma dict_set_nodup {V} (k : string) (v : V) (d : list (string * V)) :
  NoDup (map fst d) -> NoDup (map fst (Dict.set k v d)).
Proof.
  induction d as [|[k0 v0] d IH]; simpl; intros H.
  - constructor; [intros []| constructor].
  - inversion H as [|x xs Hn Hd]; subst.
    destruct (String.eqb k0 k) eqn:E; simpl; [exact H|].
    constructor; [|exact (IH Hd)].
    rewrite dict_set_keys. intros [Hk|Hk]; [|contradiction].
    subst. rewrite String.eqb_refl in E. discriminate.
Qed.

Lemma dict_get_keys {V} (k : string) (d : list (string * V)) :
  Dict.get k d <> None <-> In k (map fst d).
Proof.
  induction d as [|[k0 v0] d IH]; simpl; [split; [intros H; exfalso; apply H; reflexivity | intros []]|].
  destruct (String.eqb k0 k) eqn:E.
  - apply String.eqb_eq in E. split; [auto | discriminate].
  - rewrite IH. split; [auto|]. intros [H|H]; [|exact H].
    subst. rewrite String.eqb_refl in E. discriminate.
Qed.

Lemma consolidate_user_some (u : string) (L : list (string * Graph.edge)) :
  forall um c0, Dict.get u um = Some c0 ->
  exists c, Dict.get u (fold_left (fun um p => Suggest.consolidate_edge (fst p) um (snd p)) L um) = Some c /\
    Suggest.c_user_id c = Suggest.c_user_id c0 /\
    Suggest.c_relationships c = app (Suggest.c_relationships c0)
      (map (fun p => Suggest.mk_rel_info (fst p) (Graph.relationship (snd p)) (Graph.activity_level (snd p)))
        (filter (fun p => String.eqb (Graph.user_id (snd p)) u) L)) /\
    (forall t, In t (Suggest.c_topics c) <-> In t (Suggest.c_topics c0) \/
       In t (map fst (filter (fun p => String.eqb (Graph.user_id (snd p)) u) L))) /\
    (NoDup (Suggest.c_topics c0) -> NoDup (Suggest.c_topics c)).
Proof.
  induction L as [|p L IH]; intros um c0 H.
  - exists c0. simpl. rewrite app_nil_r. split; [exact H|]. split; [reflexivity|].
    split; [reflexivity|]. split; [intros t; split; [auto | intros [Ht|[]]; exact Ht] | auto].
  - simpl fold_left. cbn [filter].
    destruct (String.eqb (Graph.user_id (snd p)) u) eqn:E.
    + assert (Hg : Dict.get u (Suggest.consolidate_edge (fst p) um (snd p)) =
                   Some (Suggest.record_edge (fst p) (snd p) c0)).
      { rewrite get_consolidate_edge, E, H. reflexivity. }
      destruct (IH _ _ Hg) as [c [Hc [Hid [Hr [Ht Hn]]]]].
      exists c. split; [exact Hc|]. split; [exact Hid|].
      split; [rewrite Hr; simpl; rewrite <- app_assoc; reflexivity|]. split.
      * intros t. rewrite Ht. simpl. rewrite topic_nodes_in. simpl.
        split; [intros [[H1|H1]|H1]; auto | intros [H1|[H1|H1]]; auto].
      * intros H0. apply Hn. exact (add_unseen_nodup _ (fst p) H0).
    + apply IH. rewrite get_consolidate_edge, E. exact H.
Qed.

Lemma consolidate_user_none (u : string) (L : list (string * Graph.edge)) :
  forall um, Dict.get u um = None ->
  match filter (fun p => String.eqb (Graph.user_id (snd p)) u) L with
  | [] => Dict.get u (fold_left (fun um p => Suggest.consolidate_edge (fst p) um (snd p)) L um) = None
  | _ :: _ =>
      exists c, Dict.get u (fold_left (fun um p => Suggest.consolidate_edge (fst p) um (snd p)) L um) = Some c /\
        Suggest.c_user_id c = u /\
        Suggest.c_relationships c =
          map (fun p => Suggest.mk_rel_info (fst p) (Graph.relationship (snd p)) (Graph.activity_level (snd p)))
            (filter (fun p => String.eqb (Graph.user_id (snd p)) u) L) /\
        (forall t, In t (Suggest.c_topics c) <->
           In t (map fst (filter (fun p => String.eqb (Graph.user_id (snd p)) u) L))) /\
        NoDup (Suggest.c_topics c)
  end.
Proof.
  induction L as [|p L IH]; intros um H; [exact H|].
  simpl fold_left. cbn [filter].
  destruct (String.eqb (Graph.user_id (snd p)) u) eqn:E.
  - assert (Hg : Dict.get u (Suggest.consolidate_edge (fst p) um (snd p)) =
                 Some (Suggest.record_edge (fst p) (snd p) (Suggest.new_candidate (snd p)))).
    { rewrite get_consolidate_edge, E, H. reflexivity. }
    destruct (consolidate_user_some u L _ _ Hg) as [c [Hc [Hid [Hr [Ht Hn]]]]].
    apply String.eqb_eq in E.
    exists c. split; [exact Hc|]. split; [rewrite Hid; exact E|].
    split; [rewrite Hr; reflexivity|]. split.
    + intros t. rewrite Ht. simpl. split; [intros [[H1|[]]|H1]; auto | intros [H1|H1]; auto].
    + apply Hn. simpl. constructor; [intros []| constructor].
  - apply IH. rewrite get_consolidate_edge, E. exact H.
Qed.

(** X18: the consolidation keeps one candidate per user with an edge, and
    none for a user without: that candidate carries the user's id, one
    relationship record per edge of the user (its canonical topic, type and
    activity, in visiting order), and the canonical topics of those edges,
    each once. *)
Theorem consolidate_per_user (topics : list string) (ru : list (string * list Graph.edge)) (u : string) :
  let L := filter (fun p => String.eqb (Graph.user_id (snd p)) u) (Suggest.edges_of topics ru) in
  match Dict.get u (Suggest.consolidate topics ru) with
  | None => L = []
  | Some c =>
      L <> [] /\ Suggest.c_user_id c = u /\
      Suggest.c_relationships c =
        map (fun p => Suggest.mk_rel_info (fst p) (Graph.relationship (snd p)) (Graph.activity_level (snd p))) L /\
      NoDup (Suggest.c_topics c) /\
      (forall t, In t (Suggest.c_topics c) <-> In t (map fst L))
  end.
Proof.
  intros L. subst L. rewrite consolidate_as_fold.
  pose proof (consolidate_user_none u (Suggest.edges_of topics ru) [] eq_refl) as H.
  destruct (filter (fun p => String.eqb (Graph.user_id (snd p)) u) (Suggest.edges_of topics ru)) as [|p ps].
  - rewrite H. reflexivity.
  - destruct H as [c [Hc [Hid [Hr [Ht Hn]]]]]. rewrite Hc.
    split; [discriminate|]. auto.
Qed.

Lemma consolidate_ids (L : list (string * Graph.edge)) :
  forall um, NoDup (map fst um) -> (forall k c, In (k, c) um -> Suggest.c_user_id c = k) ->
  let um' := fold_left (fun um p => Suggest.consolidate_edge (fst p) um (snd p)) L um in
  NoDup (map fst um') /\ (forall k c, In (k, c) um' -> Suggest.c_user_id c = k).
Proof.
  induction L as [|p L IH]; intros um Hn Hk; [split; assumption|].
  simpl fold_left. apply IH.
  - unfold Suggest.consolidate_edge. apply dict_set_nodup. exact Hn.
  - intros k c Hin. unfold Suggest.consolidate_edge in Hin.
    apply dict_set_in in Hin. destruct Hin as [[-> ->]|Hin]; [|exact (Hk k c Hin)].
    simpl. destruct (Dict.get (Graph.user_id (snd p)) um) as [c0|] eqn:E.
    + apply Hk. apply dict_get_in. exact E.
    + reflexivity.
Qed.

Lemma ids_of_um (um : list (string * Suggest.candidate)) :
  (forall k c, In (k, c) um -> Suggest.c_user_id c = k) ->
  map Suggest.c_user_id (map snd um) = map fst um.
Proof.
  induction um as [|[k c] um IH]; intros H; [reflexivity|].
  simpl. rewrite (H k c (or_introl eq_refl)), IH; [reflexivity|].
  intros k' c' Hin. apply H. right. exact Hin.
Qed.

Lemma key_lt_iff (a b : Suggest.candidate) :
  Suggest.key_lt a b = true <->
  (Suggest.tier a < Suggest.tier b \/
   (Suggest.tier a = Suggest.tier b /\ - Suggest.c_activity_level a < - Suggest.c_activity_level b))%Z.
Proof.
  unfold Suggest.key_lt. rewrite orb_true_iff, andb_true_iff, Z.ltb_lt, Z.eqb_eq, Z.ltb_lt.
  reflexivity.
Qed.

Lemma key_lt_asym (a b : Suggest.candidate) :
  Suggest.key_lt a b = true -> Suggest.key_lt b a = false.
Proof.
  rewrite key_lt_iff. intros H. apply not_true_iff_false. rewrite key_lt_iff. lia.
Qed.

Lemma insert_perm (x : Suggest.candidate) (l : list Suggest.candidate) :
  Permutation (Suggest.insert x l) (x :: l).
Proof.
  induction l as [|y ys IH]; simpl; [reflexivity|].
  destruct (Suggest.key_lt y x).
  - rewrite IH. apply perm_swap.
  - reflexivity.
Qed.

Lemma sort_perm (l : list Suggest.candidate) : Permutation (Suggest.sort_candidates l) l.
Proof.
  unfold Suggest.sort_candidates. induction l as [|x l IH]; simpl; [reflexivity|].
  rewrite insert_perm, IH. reflexivity.
Qed.

Lemma insert_sorted (x : Suggest.candidate) (l : list Suggest.candidate) :
  Sorted (fun a b => Suggest.key_lt b a = false) l ->
  Sorted (fun a b => Suggest.key_lt b a = false) (Suggest.insert x l).
Proof.
  induction l as [|y ys IH]; intros Hs; simpl; [repeat constructor|].
  destruct (Suggest.key_lt y x) eqn:E.
  - inversion Hs as [|y' ys' Hys Hhd]; subst.
    constructor; [exact (IH Hys)|].
    destruct ys as [|z zs]; simpl.
    + constructor. exact (key_lt_asym _ _ E).
    + destruct (Suggest.key_lt z x).
      * inversion Hhd; subst. constructor. assumption.
      * constructor. exact (key_lt_asym _ _ E).
  - constructor; [exact Hs|]. constructor. exact E.
Qed.

Lemma sort_sorted (l : list Suggest.candidate) :
  Sorted (fun a b => Suggest.key_lt b a = false) (Suggest.sort_candidates l).
Proof.
  unfold Suggest.sort_candidates. induction l as [|x l IH]; simpl; [constructor|].
  apply insert_sorted. exact IH.
Qed.

Lemma consolidate_ids_all (topics : list string) (ru : list (string * list Graph.edge)) :
  NoDup (map fst (Suggest.consolidate topics ru)) /\
  map Suggest.c_user_id (map snd (Suggest.consolidate topics ru)) = map fst (Suggest.consolidate topics ru).
Proof.
  rewrite consolidate_as_fold.
  destruct (consolidate_ids (Suggest.edges_of topics ru) [] ltac:(constructor) ltac:(intros k c [])) as [Hn Hk].
  split; [exact Hn | apply ids_of_um; exact Hk].
Qed.

Lemma consolidate_has_user (topics : list string) (ru : list (string * list Graph.edge)) (u : string) :
  Dict.get u (Suggest.consolidate topics ru) <> None <->
  exists e, In e (flat_map snd ru) /\ Graph.user_id e = u.
Proof.
  rewrite consolidate_as_fold.
  pose proof (consolidate_user_none u (Suggest.edges_of topics ru) [] eq_refl) as H.
  assert (Hex : (exists e, In e (flat_map snd ru) /\ Graph.user_id e = u) <->
                filter (fun p => String.eqb (Graph.user_id (snd p)) u) (Suggest.edges_of topics ru) <> []).
  { rewrite <- (edges_of_snd topics ru). split.
    - intros [e [He Hu]] Hnil. apply in_map_iff in He. destruct He as [p [<- Hp]].
      assert (Hf : In p (filter (fun p => String.eqb (Graph.user_id (snd p)) u) (Suggest.edges_of topics ru)))
        by (apply filter_In; split; [exact Hp | apply String.eqb_eq; exact Hu]).
      rewrite Hnil in Hf. destruct Hf.
    - destruct (filter (fun p => String.eqb (Graph.user_id (snd p)) u) (Suggest.edges_of topics ru))
        as [|p ps] eqn:E; [intros H0; exfalso; apply H0; reflexivity|].
      intros _. assert (Hp : In p (p :: ps)) by (left; reflexivity).
      rewrite <- E in Hp. apply filter_In in Hp. destruct Hp as [Hp Hu].
      exists (snd p). split; [apply in_map; exact Hp | apply String.eqb_eq; exact Hu]. }
  rewrite Hex.
  destruct (filter (fun p => String.eqb (Graph.user_id (snd p)) u) (Suggest.edges_of topics ru)) as [|p ps].
  - rewrite H. split; intros H0; exfalso; apply H0; reflexivity.
  - destruct H as [c [Hc _]]. rewrite Hc. split; discriminate.
Qed.

(** X19: the ranked pool [sorted_users] is a reordering of the
    consolidated candidates, ordered by the key (tier, then higher activity
    first), lists each user at most once, and lists exactly the users that
    have an edge in the graph answer. *)
Theorem pool_sorted_distinct (topics : list string) (ru : list (string * list Graph.edge)) :
  Permutation (Suggest.candidate_pool topics ru) (map snd (Suggest.consolidate topics ru)) /\
  Sorted (fun a b => Suggest.key_lt b a = false) (Suggest.candidate_pool topics ru) /\
  NoDup (map Suggest.c_user_id (Suggest.candidate_pool topics ru)) /\
  (forall u, In u (map Suggest.c_user_id (Suggest.candidate_pool topics ru)) <->
     exists e, In e (flat_map snd ru) /\ Graph.user_id e = u).
Proof.
  unfold Suggest.candidate_pool.
  destruct (consolidate_ids_all topics ru) as [Hn Hids].
  pose proof (Permutation_map Suggest.c_user_id (sort_perm (map snd (Suggest.consolidate topics ru)))) as Hp.
  rewrite Hids in Hp.
  split; [apply sort_perm|]. split; [apply sort_sorted|]. split.
  - exact (Permutation_NoDup (Permutation_sym Hp) Hn).
  - intros u. rewrite <- consolidate_has_user, dict_get_keys. split.
    + apply (Permutation_in _ Hp).
    + apply (Permutation_in _ (Permutation_sym Hp)).
Qed.








(** ** Survey timeout *)

(** X21: right after [send_dm_to_user_id] delivers the survey invitation,
    [is_survey_timed_out] is False for that user at every clock reading
    (the invitation stores [start_time = None]); once a start time is
    stored, the survey times out exactly when more than 600 seconds have
    passed since it. *)
Theorem invited_user_not_timed_out (st : ConvState.conv_store) (u name ts : string) (now : Q) :
  ConvState.is_survey_timed_out
    (fst (Notify.send_dm_to_user_id st (Notify.Delivered ts) u name)) now u = Some false /\
  (forall t, Dict.get "start_time" (ConvState.get_conversation_state st u) = Some (ConvState.VTime t) ->
     ConvState.is_survey_timed_out st now u = Some (Cooldown.Qltb 600 (now - t)) /\
     (ConvState.is_survey_timed_out st now u = Some true <-> 600 < now - t)).
Proof.
  split.
  - unfold ConvState.is_survey_timed_out. cbn [fst Notify.send_dm_to_user_id].
    rewrite safe_update_state, String.eqb_refl.
    destruct (ConvState.dict_update (ConvState.get_conversation_state st u) _) as [|kv rest] eqn:E.
    + reflexivity.
    + rewrite <- E, dict_update_get. reflexivity.
  - intros t Ht. unfold ConvState.is_survey_timed_out.
    destruct (ConvState.get_conversation_state st u) as [|kv rest]; [discriminate|].
    rewrite Ht. split; [reflexivity|].
    split; [intros H; injection H as H; apply Qltb_iff; exact H|].
    intros H. apply Qltb_iff in H. rewrite H. reflexivity.
Qed.
